(** * rockpi-penta: fan duty table, configuration fallback, button gestures
      and the OLED page slider

    A shallow embedding of [usr/bin/rockpi-penta/misc.py] and
    [usr/bin/rockpi-penta/oled.py].

    Modelling conventions.
    - Python floats are rationals [Q].  Every float operation the two files
      perform is exact on the values involved: comparisons, and [1.0 - x] on
      the five duty fractions 0, 0.25, 0.5, 0.75 and 1.  Results are compared
      with [==] ([Qeq]), since [Q] does not reduce fractions.  NaN and the
      infinities are not represented.
    - Python dicts with string keys are [gmap string _]; a missing key
      ([KeyError]) is [None].
    - Exceptions are an explicit outcome, threaded through a small
      state-and-exception monad where the source mutates [conf] step by step
      inside [try].
    - Wall-clock time is [Q] seconds.  The gpiod line request is modelled as
      a clock together with the edges that have not been read yet. *)

From Stdlib Require Import QArith Lqa ZArith List String Ascii Bool Lia.
From stdpp Require Import base option gmap strings.
Import ListNotations.

(** ** Python values held by [conf] *)

Inductive pyval :=
| PyFloat (q : Q)
| PyInt (z : Z)
| PyStr (s : string)
| PyBool (b : bool)
| PyList (l : list string).

(** An entry of the top-level dict: a section (itself a dict) or a plain
    value such as [conf['disk']]. *)
Inductive entry :=
| Dict (d : gmap string pyval)
| Val (v : pyval).

(** [conf[k][o]]; [None] stands for [KeyError]/[TypeError]. *)
Definition getitem2 (c : gmap string entry) (k o : string) : option pyval :=
  match c !! k with
  | Some (Dict d) => d !! o
  | _ => None
  end.

(** [conf[k]] on a [defaultdict(dict)]: a missing section springs into
    existence empty. *)
Definition section (c : gmap string entry) (k : string) : gmap string pyval :=
  match c !! k with
  | Some (Dict d) => d
  | _ => ∅
  end.

(** [conf[k][o] = v] on a [defaultdict(dict)]. *)
Definition setitem2 (k o : string) (v : pyval) (c : gmap string entry)
  : gmap string entry :=
  <[k := Dict (<[o := v]> (section c k))]> c.

(** The number a value compares as / what [float(v)] gives for the numeric
    types.  [conf] never holds a [str] or a list where a number is read. *)
Definition num_of (v : pyval) : option Q :=
  match v with
  | PyFloat q => Some q
  | PyInt z => Some (inject_Z z)
  | PyBool b => Some (if b then 1%Q else 0%Q)
  | PyStr _ | PyList _ => None
  end.

(** Truth value of an object in a condition. *)
Definition truthy (v : pyval) : bool :=
  match v with
  | PyFloat q => negb (Qeq_bool q 0)
  | PyInt z => negb (z =? 0)%Z
  | PyStr s => negb (String.eqb s "")
  | PyBool b => b
  | PyList l => match l with [] => false | _ => true end
  end.

(** ** Exceptions and the [conf]-threading monad *)

Inductive exn :=
| NoSectionError
| NoOptionError
| ValueError
| ParsingError
| MissingSectionHeaderError
| InterpolationError
| OSError.

Inductive outcome (A : Type) :=
| Ok (a : A)
| Raise (e : exn).
Arguments Ok {A} a.
Arguments Raise {A} e.

(** A statement sequence working on the local dict [conf]: the dict keeps
    whatever was stored before an exception is raised. *)
Definition Py (A : Type) : Type :=
  gmap string entry -> outcome A * gmap string entry.

Definition ret {A} (a : A) : Py A := fun c => (Ok a, c).

Definition bind {A B} (m : Py A) (k : A -> Py B) : Py B :=
  fun c =>
    match m c with
    | (Ok a, c') => k a c'
    | (Raise e, c') => (Raise e, c')
    end.

Definition lift {A} (r : outcome A) : Py A := fun c => (r, c).

Definition store (k o : string) (v : pyval) : Py unit :=
  fun c => (Ok tt, setitem2 k o v c).

Definition store_top (k : string) (v : entry) : Py unit :=
  fun c => (Ok tt, <[k := v]> c).

(** [try: body / except Exception: handler].  Every constructor of [exn] is
    a subclass of [Exception], so the handler takes them all. *)
Definition try_except {A} (body : Py A) (handler : exn -> Py A) : Py A :=
  fun c =>
    match body c with
    | (Ok a, c') => (Ok a, c')
    | (Raise e, c') => handler e c'
    end.

Declare Scope py_scope.
Delimit Scope py_scope with py.
Notation "x <- m ;; k" := (bind m (fun x => k))
  (at level 65, m at next level, right associativity) : py_scope.
Notation "m ;;; k" := (bind m (fun _ => k))
  (at level 65, right associativity) : py_scope.

(** ** misc.py *)

Module Misc.

(** What [ConfigParser] answers for the file at hand: each call either
    returns or raises. *)
Record ConfigParser := {
  read : string -> outcome unit;
  getfloat : string -> string -> outcome Q;
  get : string -> string -> outcome string;
  getboolean : string -> string -> outcome bool;
  get_fallback : string -> string -> string -> outcome string
}.

(** [str.split(sep)] for a one-character separator. *)
Fixpoint split (sep : ascii) (s : string) : list string :=
  match s with
  | EmptyString => [EmptyString]
  | String c s' =>
      match split sep s' with
      | w :: ws =>
          if Ascii.eqb c sep then EmptyString :: w :: ws else String c w :: ws
      | [] => [String c EmptyString]
      end
  end.

Definition FAN_DUTY_OFF : Q := 0.0.
Definition FAN_DUTY_ON : Q := 1.0.

(** [OrderedDict({'lv3': 1.0, 'lv2': 0.75, 'lv1': 0.5, 'lv0': 0.25})], in
    iteration order. *)
Definition lv2dc : list (string * Q) :=
  [("lv3", 1.0); ("lv2", 0.75); ("lv1", 0.5); ("lv0", 0.25)]%Q.

Definition duty2dc (x : Q) : Q := (1.0 - x)%Q.

(** The body of [try] in [read_conf]. *)
Definition read_conf_try (cfg : ConfigParser) : Py unit :=
  (lift (read cfg "/etc/rockpi-penta.conf") ;;;
   v <- lift (getfloat cfg "fan" "lv0") ;; store "fan" "lv0" (PyFloat v) ;;;
   v <- lift (getfloat cfg "fan" "lv1") ;; store "fan" "lv1" (PyFloat v) ;;;
   v <- lift (getfloat cfg "fan" "lv2") ;; store "fan" "lv2" (PyFloat v) ;;;
   v <- lift (getfloat cfg "fan" "lv3") ;; store "fan" "lv3" (PyFloat v) ;;;
   v <- lift (get cfg "key" "click") ;; store "key" "click" (PyStr v) ;;;
   v <- lift (get cfg "key" "twice") ;; store "key" "twice" (PyStr v) ;;;
   v <- lift (get cfg "key" "press") ;; store "key" "press" (PyStr v) ;;;
   v <- lift (getfloat cfg "time" "twice") ;; store "time" "twice" (PyFloat v) ;;;
   v <- lift (getfloat cfg "time" "press") ;; store "time" "press" (PyFloat v) ;;;
   v <- lift (getboolean cfg "slider" "auto") ;; store "slider" "auto" (PyBool v) ;;;
   v <- lift (getfloat cfg "slider" "time") ;; store "slider" "time" (PyFloat v) ;;;
   v <- lift (getboolean cfg "oled" "rotate") ;; store "oled" "rotate" (PyBool v) ;;;
   v <- lift (getboolean cfg "oled" "f-temp") ;; store "oled" "f-temp" (PyBool v) ;;;
   extra_disks <- lift (get_fallback cfg "disk" "extra" "") ;;
   store_top "disk"
     (Val (if negb (String.eqb extra_disks "")
           then PyList (split "," extra_disks)
           else PyStr extra_disks)))%py.

(** The body of [except Exception] in [read_conf] (after
    [traceback.print_exc()], which only writes to stderr). *)
Definition read_conf_except : Py unit :=
  (store "fan" "lv0" (PyInt 35) ;;;
   store "fan" "lv1" (PyInt 40) ;;;
   store "fan" "lv2" (PyInt 45) ;;;
   store "fan" "lv3" (PyInt 50) ;;;
   store "key" "click" (PyStr "slider") ;;;
   store "key" "twice" (PyStr "switch") ;;;
   store "key" "press" (PyStr "none") ;;;
   store "time" "twice" (PyFloat 0.7) ;;;
   store "time" "press" (PyFloat 1.8) ;;;
   store "slider" "auto" (PyBool true) ;;;
   store "slider" "time" (PyInt 10) ;;;
   store "oled" "rotate" (PyBool false) ;;;
   store "oled" "f-temp" (PyBool false))%py.

(** [read_conf()]: the local [conf] starts as an empty [defaultdict(dict)]
    and is returned at the end. *)
Definition read_conf (cfg : ConfigParser) : outcome (gmap string entry) :=
  match try_except (read_conf_try cfg) (fun _ => read_conf_except) ∅ with
  | (Ok _, conf) => Ok conf
  | (Raise e, _) => Raise e
  end.

(** Module level: [conf = {'disk': [], 'run': mp.Value('d', 1)}] followed by
    [conf.update(read_conf())]. *)
Definition conf_initial : gmap string entry :=
  <["run" := Val (PyFloat 1)]> (<["disk" := Val (PyList [])]> ∅).

Definition conf_update (new old : gmap string entry) : gmap string entry :=
  new ∪ old.

Definition module_conf (cfg : ConfigParser) : outcome (gmap string entry) :=
  match read_conf cfg with
  | Ok c => Ok (conf_update c conf_initial)
  | Raise e => Raise e
  end.

(** [conf['fan'][lv]] as the number it compares as. *)
Definition threshold (conf : gmap string entry) (lv : string) : option Q :=
  getitem2 conf "fan" lv ≫= num_of.

(** [get_sleep_time()] *)
Definition get_sleep_time (conf : gmap string entry) : option pyval :=
  getitem2 conf "slider" "time".

(** The [for lv, dc in lv2dc.items()] loop of [fan_temp2dc], on the items
    still to visit; [result] is the local of that name.  [None] is the
    exception of a failed [conf['fan'][lv]] or comparison. *)
Fixpoint fan_temp2dc_loop (conf : gmap string entry) (t : Q)
    (items : list (string * Q)) (result : Q) : option Q :=
  match items with
  | [] => Some result
  | (lv, dc) :: rest =>
      th ← threshold conf lv;
      if Qle_bool th t            (* t >= conf['fan'][lv] *)
      then Some dc                (* result = dc; break *)
      else fan_temp2dc_loop conf t rest result
  end.

Definition fan_temp2dc (conf : gmap string entry) (t : Q) : option Q :=
  result ← fan_temp2dc_loop conf t lv2dc FAN_DUTY_OFF;
  Some (duty2dc result).

(** *** The button: [read_key_events] *)

(** [gpiod.EdgeEvent.Type] *)
Inductive edge_type :=
| RISING_EDGE
| FALLING_EDGE.

(** The line request returned by [gpiod.request_lines]: the clock, and the
    edges that have not been read yet, oldest first, each with the instant
    at which it occurs on the line. *)
Record request := {
  now : Q;
  pending : list (Q * edge_type)
}.

(** What a call of [wait_edge_events] does: never return ([Blocked], no
    edge will come and there is no timeout), or return [ready] with the
    clock moved on. *)
Inductive wake :=
| Blocked
| Woke (ready : bool) (r : request).

Definition later (a b : Q) : Q := if Qle_bool a b then b else a.

(** [request.wait_edge_events(timeout)]: returns [True] as soon as an edge
    is there, [False] once [timeout] seconds have passed without one;
    [timeout = None] waits without limit.  An edge occurring exactly when
    the timeout expires counts as arrived. *)
Definition wait_edge_events (timeout : option Q) (r : request) : wake :=
  match pending r with
  | [] =>
      match timeout with
      | None => Blocked
      | Some w => Woke false {| now := (now r + w)%Q; pending := [] |}
      end
  | (ts, _) :: _ =>
      match timeout with
      | None => Woke true {| now := later (now r) ts; pending := pending r |}
      | Some w =>
          if Qle_bool ts (now r + w)%Q
          then Woke true {| now := later (now r) ts; pending := pending r |}
          else Woke false {| now := (now r + w)%Q; pending := pending r |}
      end
  end.

(** The edges that have occurred by time [t], and the ones still to come. *)
Fixpoint take_ready (t : Q) (q : list (Q * edge_type))
  : list edge_type * list (Q * edge_type) :=
  match q with
  | [] => ([], [])
  | (ts, e) :: q' =>
      if Qle_bool ts t
      then let '(es, rest) := take_ready t q' in (e :: es, rest)
      else ([], q)
  end.

(** [request.read_edge_events()] *)
Definition read_edge_events (r : request) : list edge_type * request :=
  let '(es, rest) := take_ready (now r) (pending r) in
  (es, {| now := now r; pending := rest |}).

(** The local variables of [read_key_events] that live across iterations. *)
Record locals := {
  click_count : Z;
  wait : option Q;
  ignore_release : bool
}.

Definition event_single : string := "click".
Definition event_double : string := "twice".
Definition event_long : string := "press".

Section KeyLoop.

Variables time_long_press time_double_click : Q.

(** [wait == time_double_click] *)
Definition wait_eq (w : option Q) (x : Q) : bool :=
  match w with
  | Some v => Qeq_bool v x
  | None => false
  end.

(** The branch [if not request.wait_edge_events(wait): ...; continue]:
    the values yielded and the locals afterwards. *)
Definition timed_out (s : locals) : list string * locals :=
  let ignore_release1 :=
    if (click_count s =? 0)%Z then true else ignore_release s in
  let long := if (click_count s =? 0)%Z then [event_long] else [] in
  let single := if (click_count s =? 1)%Z then [event_single] else [] in
  (long ++ single,
   {| click_count := 0; wait := None; ignore_release := ignore_release1 |}).

(** The body of [for event in request.read_edge_events()] for one event. *)
Definition edge_event (s : locals) (e : edge_type) : list string * locals :=
  match e with
  | FALLING_EDGE =>                                   (* pressed *)
      if (click_count s =? 0)%Z
      then ([], {| click_count := click_count s;
                   wait := Some time_long_press;
                   ignore_release := ignore_release s |})
      else ([], s)
  | RISING_EDGE =>                                    (* released *)
      if ignore_release s
      then ([], {| click_count := click_count s;
                   wait := wait s;
                   ignore_release := false |})        (* continue *)
      else
        let click_count1 := (click_count s + 1)%Z in
        let wait1 :=
          if (click_count1 =? 1)%Z then Some time_double_click else wait s in
        if (click_count1 =? 2)%Z && wait_eq wait1 time_double_click
        then ([event_double],
              {| click_count := 0; wait := None; ignore_release := false |})
        else ([], {| click_count := click_count1;
                     wait := wait1;
                     ignore_release := false |})
  end.

(** The whole [for] loop over one batch of events. *)
Fixpoint edge_events (s : locals) (es : list edge_type)
  : list string * locals :=
  match es with
  | [] => ([], s)
  | e :: es' =>
      let '(y, s1) := edge_event s e in
      let '(ys, s2) := edge_events s1 es' in
      (y ++ ys, s2)
  end.

(** [while True] of [read_key_events], one iteration per unit of [fuel].
    The result is every value the generator yields, each with the clock
    reading at the [yield], and the locals with which it ends up blocked in
    [wait_edge_events] for good; [None] only when [fuel] runs out. *)
Fixpoint key_loop (fuel : nat) (s : locals) (r : request)
  : option (list (Q * string) * locals) :=
  match fuel with
  | O => None
  | S fuel' =>
      match wait_edge_events (wait s) r with
      | Blocked => Some ([], s)
      | Woke false r1 =>
          let '(ys, s1) := timed_out s in
          '(out, sf) ← key_loop fuel' s1 r1;
          Some (map (pair (now r1)) ys ++ out, sf)
      | Woke true r1 =>
          let '(es, r2) := read_edge_events r1 in
          let '(ys, s1) := edge_events s es in
          '(out, sf) ← key_loop fuel' s1 r2;
          Some (map (pair (now r2)) ys ++ out, sf)
      end
  end.

End KeyLoop.

(** The locals as initialised before the loop. *)
Definition locals_initial : locals :=
  {| click_count := 0; wait := None; ignore_release := false |}.

(** Iterations that are always enough for a request: each one either reads
    at least one pending edge or is a timeout, and no two timeouts follow
    each other. *)
Definition enough (r : request) : nat := 2 * length (pending r) + 2.

(** What bounds the iterations left: twice the pending edges, one more
    while a wait is armed, one more for the final blocking wait. *)
Definition key_loop_measure (s : locals) (r : request) : nat :=
  2 * length (pending r) + (match wait s with Some _ => 1 | None => 0 end) + 1.

(** [read_key_events(chip_device, chip_line)], run on the request that
    [gpiod.request_lines(chip_device, ...)] hands out.  [None] is an
    exception while reading [conf['time']].  [read_key_events_from] is the
    same generator observed from the moment its locals are [s]. *)
Definition read_key_events_from (conf : gmap string entry) (s : locals)
    (r : request) : option (list (Q * string) * locals) :=
  time_long_press ← getitem2 conf "time" "press" ≫= num_of;
  time_double_click ← getitem2 conf "time" "twice" ≫= num_of;
  key_loop time_long_press time_double_click (enough r) s r.

Definition read_key_events (conf : gmap string entry) (r : request)
  : option (list (Q * string) * locals) :=
  read_key_events_from conf locals_initial r.

(** No pending edge at or before [t]. *)
Definition next_after (t : Q) (q : list (Q * edge_type)) : Prop :=
  match q with
  | [] => True
  | (ts, _) :: _ => (t < ts)%Q
  end.

(** An edge at [ts] is not too late for a wait started at [t]. *)
Definition within (timeout : option Q) (t ts : Q) : Prop :=
  match timeout with
  | None => True
  | Some w => (ts <= t + w)%Q
  end.

(** The gestures of a run, without their times. *)
Definition gestures (out : list (Q * string)) : list string := map snd out.

Definition count_gesture (g : string) (out : list (Q * string)) : nat :=
  length (List.filter (String.eqb g) (gestures out)).

(** *** The rest of misc.py *)

(** [get_func(key)]: [conf['key'].get(key, 'none')]. *)
Definition get_func (conf : gmap string entry) (key : string) : option pyval :=
  match conf !! "key" with
  | Some (Dict d) => Some (default (PyStr "none") (d !! key))
  | _ => None
  end.

(** [fan_switch()]: [conf['run'].value = not conf['run'].value], on the
    double held by [mp.Value('d', 1)]; the boolean is stored as 1.0 or
    0.0. *)
Definition fan_switch (conf : gmap string entry)
  : option (gmap string entry) :=
  match conf !! "run" with
  | Some (Val (PyFloat v)) =>
      Some (<["run" := Val (PyFloat (if negb (truthy (PyFloat v))
                                     then 1%Q else 0%Q))]> conf)
  | _ => None
  end.

(** [cmds['blk']] *)
Definition cmds_blk : string := "lsblk | awk '{print $1}'".

Definition newline : ascii := "010"%char.

Section Shell.

(** [subprocess.check_output(cmd, shell=True).decode()] and [str.strip],
    both taken as they come; the commands are assumed to exit normally. *)
Variable shell : string -> string.
Variable strip : string -> string.

(** [check_output(cmd)] *)
Definition check_output (cmd : string) : string := strip (shell cmd).

(** [get_blk()] *)
Definition get_blk (conf : gmap string entry) : gmap string entry :=
  <["disk" :=
      Val (PyList (List.filter (String.prefix "sd")
                     (split newline (strip (check_output cmds_blk)))))]>
    conf.

End Shell.

(** An insertion-ordered [dict] with string keys and values: [d[k] = v]
    keeps the place of a key that is already there. *)
Fixpoint dict_set (k v : string) (d : list (string * string))
  : list (string * string) :=
  match d with
  | [] => [(k, v)]
  | (k', v') :: d' =>
      if String.eqb k k' then (k, v) :: d' else (k', v') :: dict_set k v d'
  end.

(** The one-character strings a [for] loop over a [str] goes through. *)
Fixpoint chars (s : string) : list string :=
  match s with
  | EmptyString => []
  | String c s' => String c EmptyString :: chars s'
  end.

(** What [for x in conf['disk']] goes through: [conf['disk']] is a list of
    names, or the [str] left by [read_conf]. *)
Definition iter_names (e : entry) : option (list string) :=
  match e with
  | Val (PyList l) => Some l
  | Val (PyStr s) => Some (chars s)
  | _ => None
  end.

(** The two command lines of [get_disk_info]: usage of the root file
    system, and usage of [/dev/x]. *)
Inductive df_command :=
| DfRoot
| DfDev (x : string).

(** The default argument [cache={}] of [get_disk_info], which lives as long
    as the module: its entries ['time'] and ['info']. *)
Record disk_cache := {
  cache_time : option Q;
  cache_info : option (list string * list string)
}.

Definition cache_empty : disk_cache :=
  {| cache_time := None; cache_info := None |}.

(** [not cache.get('time') or time.time() - cache['time'] > 30] *)
Definition cache_stale (time_now : Q) (cache : disk_cache) : bool :=
  match cache_time cache with
  | None => true
  | Some t => Qeq_bool t 0 || negb (Qle_bool (time_now - t) 30)
  end.

(** The dict [info] of [get_disk_info] once its loop has gone through
    [disks]: it starts with the root entry. *)
Definition info_after (df : df_command -> string) (disks : list string)
  : list (string * string) :=
  fold_left (fun info x => dict_set x (df (DfDev x)) info) disks
    [("root"%string, df DfRoot)].

(** [get_disk_info()].  [df] is what [check_output] returns for each
    command, [time_now] and [time_after] are the two readings of
    [time.time()].  The result is [cache['info']], that is the keys of
    [info] and its values as [zip] pairs them up, then the cache, then the
    commands that were run. *)
Definition get_disk_info (df : df_command -> string) (time_now time_after : Q)
    (conf : gmap string entry) (cache : disk_cache)
  : option ((list string * list string) * disk_cache * list df_command) :=
  if cache_stale time_now cache then
    disks ← conf !! "disk" ≫= iter_names;
    let info := info_after df disks in
    let result := (map fst info, map snd info) in
    Some (result,
          {| cache_time := Some time_after; cache_info := Some result |},
          DfRoot :: map DfDev disks)
  else
    result ← cache_info cache;
    Some (result, cache, []).

End Misc.

(** ** oled.py *)

Module Oled.

(** What [gen_pages] returns.  The texts come from shell commands; only the
    choice of the page is modelled. *)
Inductive page :=
| SystemPage        (* uptime, CPU temperature, IP *)
| LoadPage          (* CPU load, memory *)
| DiskPage.         (* put_disk_info() *)

Definition gen_pages (idx : Z) : page :=
  if (idx =? 0)%Z then SystemPage
  else if (idx =? 1)%Z then LoadPage
  else DiskPage.

(** What the scheduler does to the display and to [slide_event]. *)
Inductive action :=
| DrawText (p : page)       (* draw.text for every item of the page *)
| DispShow                  (* disp_show() *)
| EventClear                (* slide_event.clear() *)
| EventWait (timeout : Q).  (* slide_event.wait(timeout) *)

(** [slider()]: the new value of the global [idx] and what is drawn. *)
Definition slider (idx : Z) : Z * list action :=
  let idx1 := (idx + 1)%Z in
  let idx2 := (idx1 mod 3)%Z in
  (idx2, [DrawText (gen_pages idx2); DispShow]).

(** [refresh()] *)
Definition refresh (idx : Z) : Z * list action :=
  (idx, [DrawText (gen_pages idx); DispShow]).

(** The global [idx] and the local [slide] of [auto_slider]. *)
Record slider_state := {
  idx : Z;
  slide : bool
}.

(** One iteration of [while True] in [auto_slider].  [is_set] is what
    [slide_event.is_set()] answers after the wait: whether another thread
    set the event since it was cleared. *)
Definition auto_slider_body (conf : gmap string entry) (is_set : bool)
    (s : slider_state) : option (list action * slider_state) :=
  auto ← getitem2 conf "slider" "auto";
  let '(idx1, drawn) :=
    if truthy auto || slide s then slider (idx s) else refresh (idx s) in
  timeout ← Misc.get_sleep_time conf ≫= num_of;
  Some (drawn ++ [EventClear; EventWait timeout],
        {| idx := idx1; slide := is_set |}).

(** As many iterations as there are answers of [is_set]. *)
Fixpoint auto_slider_loop (conf : gmap string entry) (answers : list bool)
    (s : slider_state) : option (list action * slider_state) :=
  match answers with
  | [] => Some ([], s)
  | is_set :: rest =>
      '(done1, s1) ← auto_slider_body conf is_set s;
      '(done2, s2) ← auto_slider_loop conf rest s1;
      Some (done1 ++ done2, s2)
  end.

(** [auto_slider(slide_event)], started with the module's [idx = -1]. *)
Definition auto_slider (conf : gmap string entry) (answers : list bool)
  : option (list action * slider_state) :=
  auto_slider_loop conf answers {| idx := -1; slide := true |}.

(** One entry of a page: the keyword arguments of [draw.text].  The font is
    named by its key in the dict [font]. *)
Record item := {
  xy : Z * Z;
  text : string;
  fill : Z;
  font : string
}.

(** ['{} {}'.format(a, b)] *)
Definition format2 (a b : string) : string := (a ++ " " ++ b)%string.

(** ['{} {}  {} {}'.format(a, b, c, d)] *)
Definition format4 (a b c d : string) : string :=
  (a ++ " " ++ b ++ "  " ++ c ++ " " ++ d)%string.

(** [put_disk_info()], on the pair [k, v] that [misc.get_disk_info()]
    returns.  [None] is an [IndexError]. *)
Definition put_disk_info (k v : list string) : option (list item) :=
  k0 ← k !! 0%nat; v0 ← v !! 0%nat;
  let text1 := format2 k0 v0 in
  let l := length k in
  if (3 <? l)%nat then
    k1 ← k !! 1%nat; v1 ← v !! 1%nat; k2 ← k !! 2%nat; v2 ← v !! 2%nat;
    let text2 := format4 k1 v1 k2 v2 in
    k3 ← k !! 3%nat; v3 ← v !! 3%nat;
    let text3 := format2 k3 v3 in
    text3 ← (if (4 <? l)%nat
             then k4 ← k !! 4%nat; v4 ← v !! 4%nat;
                  Some (text3 ++ format2 k4 v4)%string
             else Some text3);
    Some [ {| xy := (0, -2)%Z; text := text1; fill := 255; font := "11" |};
           {| xy := (0, 10)%Z; text := text2; fill := 255; font := "11" |};
           {| xy := (0, 21)%Z; text := text3; fill := 255; font := "11" |} ]
  else if (1 <? l)%nat then
    k1 ← k !! 1%nat; v1 ← v !! 1%nat;
    let text2 := format2 k1 v1 in
    text2 ← (if (2 <? l)%nat
             then k2 ← k !! 2%nat; v2 ← v !! 2%nat;
                  Some (text2 ++ format2 k2 v2)%string
             else Some text2);
    Some [ {| xy := (0, 2)%Z; text := text1; fill := 255; font := "12" |};
           {| xy := (0, 18)%Z; text := text2; fill := 255; font := "12" |} ]
  else
    Some [ {| xy := (0, 2)%Z; text := text1; fill := 255; font := "14" |} ].

End Oled.

(** ** Configuration files used as examples *)

Module Examples.
Import Misc.

(** No [/etc/rockpi-penta.conf]: [cfg.read] silently reads nothing and the
    first lookup fails. *)
Definition cfg_missing : ConfigParser :=
  {| read := fun _ => Ok tt;
     getfloat := fun _ _ => Raise NoSectionError;
     get := fun _ _ => Raise NoSectionError;
     getboolean := fun _ _ => Raise NoSectionError;
     get_fallback := fun _ _ fallback => Ok fallback |}.

Fixpoint option_of {A} (tbl : list (string * string * A)) (s o : string)
  : outcome A :=
  match tbl with
  | [] => Raise NoOptionError
  | (s', o', v) :: tbl' =>
      if String.eqb s s' && String.eqb o o' then Ok v else option_of tbl' s o
  end.

(** A complete file with the stock fan levels and key bindings, and the
    given [time] and [slider] settings. *)
Definition cfg_file (twice press : Q) (auto : bool) : ConfigParser :=
  {| read := fun _ => Ok tt;
     getfloat := option_of
       [("fan", "lv0", 35%Q); ("fan", "lv1", 40%Q); ("fan", "lv2", 45%Q);
        ("fan", "lv3", 50%Q); ("time", "twice", twice);
        ("time", "press", press); ("slider", "time", 10%Q)];
     get := option_of
       [("key", "click", "slider"); ("key", "twice", "switch");
        ("key", "press", "none")];
     getboolean := option_of
       [("slider", "auto", auto); ("oled", "rotate", false);
        ("oled", "f-temp", false)];
     get_fallback := fun _ _ fallback => Ok fallback |}.

(** A file with a [fan] section of its own and nothing else: the lookup of
    [key.click] fails after the four fan levels have been stored. *)
Definition cfg_fan_only : ConfigParser :=
  {| read := fun _ => Ok tt;
     getfloat := option_of
       [("fan", "lv0", 30%Q); ("fan", "lv1", 38%Q); ("fan", "lv2", 46%Q);
        ("fan", "lv3", 55%Q)];
     get := fun _ _ => Raise NoSectionError;
     getboolean := fun _ _ => Raise NoSectionError;
     get_fallback := fun _ _ fallback => Ok fallback |}.


(** The module-level [conf] once [misc] is imported with that file. *)
Definition conf_of (cfg : ConfigParser) : gmap string entry :=
  match module_conf cfg with
  | Ok c => c
  | Raise _ => ∅
  end.

End Examples.

(** The defaults the configuration falls back to, as documented: fan levels
    35/40/45/50, click = slider, twice = switch, press = none, double-click
    window 0.7 s, long press 1.8 s, automatic sliding every 10 s, no
    rotation, Celsius. *)
Definition documented_defaults : gmap string entry :=
  {[ "fan" := Dict {[ "lv0" := PyInt 35; "lv1" := PyInt 40;
                      "lv2" := PyInt 45; "lv3" := PyInt 50 ]};
     "key" := Dict {[ "click" := PyStr "slider"; "twice" := PyStr "switch";
                      "press" := PyStr "none" ]};
     "time" := Dict {[ "twice" := PyFloat 0.7; "press" := PyFloat 1.8 ]};
     "slider" := Dict {[ "auto" := PyBool true; "time" := PyInt 10 ]};
     "oled" := Dict {[ "rotate" := PyBool false; "f-temp" := PyBool false ]} ]}.

(** Fractions that go down along the table and never below [result]. *)
Fixpoint descending (items : list (string * Q)) (result : Q) : Prop :=
  match items with
  | [] => True
  | (_, dc) :: rest =>
      (result <= dc)%Q
      /\ (forall lv' dc', In (lv', dc') rest -> (dc' <= dc)%Q)
      /\ descending rest result
  end.

(** What [read_conf] returns when every lookup succeeds, written out. *)
Definition loaded_conf (lv0 lv1 lv2 lv3 : Q) (click twice press : string)
    (time_twice time_press : Q) (auto : bool) (slider_time : Q)
    (rotate f_temp : bool) (extra : string) : gmap string entry :=
  {[ "fan" := Dict {[ "lv0" := PyFloat lv0; "lv1" := PyFloat lv1;
                      "lv2" := PyFloat lv2; "lv3" := PyFloat lv3 ]};
     "key" := Dict {[ "click" := PyStr click; "twice" := PyStr twice;
                      "press" := PyStr press ]};
     "time" := Dict {[ "twice" := PyFloat time_twice;
                       "press" := PyFloat time_press ]};
     "slider" := Dict {[ "auto" := PyBool auto;
                         "time" := PyFloat slider_time ]};
     "oled" := Dict {[ "rotate" := PyBool rotate;
                       "f-temp" := PyBool f_temp ]};
     "disk" := Val (if negb (String.eqb extra "")
                    then PyList (Misc.split "," extra)
                    else PyStr extra) ]}.

(** ** Bookkeeping for the properties of the loops *)

(** How often [g] is among the values [ys]. *)
Definition occurrences (g : string) (ys : list string) : Z :=
  Z.of_nat (length (List.filter (String.eqb g) ys)).

Definition is_rising (e : Misc.edge_type) : bool :=
  match e with
  | Misc.RISING_EDGE => true
  | Misc.FALLING_EDGE => false
  end.

(** Releases and presses among a list of edges. *)
Definition releases (es : list Misc.edge_type) : Z :=
  Z.of_nat (length (List.filter is_rising es)).

Definition presses (es : list Misc.edge_type) : Z :=
  Z.of_nat (length (List.filter (fun e => negb (is_rising e)) es)).

(** What holds of the locals of [read_key_events] between two iterations:
    at most one click is pending, and while one is pending the wait armed
    is the double-click window. *)
Definition key_inv (D : Q) (s : Misc.locals) : Prop :=
  Misc.click_count s = 0%Z
  \/ (Misc.click_count s = 1%Z /\ Misc.wait s = Some D).

(** 1 while a long press is being timed. *)
Definition long_press_armed (s : Misc.locals) : Z :=
  if (Misc.click_count s =? 0)%Z
  then match Misc.wait s with Some _ => 1%Z | None => 0%Z end
  else 0%Z.

Definition flag (b : bool) : Z := if b then 1%Z else 0%Z.

(** The account of one stretch of the loop that starts with the locals [s],
    reads [r] releases and [f] presses, yields [ys] and ends with the
    locals [s']. *)
Definition accounted (D : Q) (s : Misc.locals) (ys : list string) (r f : Z)
    (s' : Misc.locals) : Prop :=
  key_inv D s'
  /\ Forall (fun g => g = "click" \/ g = "twice" \/ g = "press")%string ys
  /\ (occurrences "click" ys + 2 * occurrences "twice" ys
      + Misc.click_count s' <= Misc.click_count s + r)%Z
  /\ (Misc.click_count s + r + flag (Misc.ignore_release s')
      <= occurrences "click" ys + 2 * occurrences "twice" ys
         + Misc.click_count s' + occurrences "press" ys
         + flag (Misc.ignore_release s))%Z
  /\ (occurrences "press" ys + long_press_armed s'
      <= long_press_armed s + f)%Z.

(** How often [auto_slider] has moved to the next page after its first
    iteration, the answers of [is_set] so far being [answers]. *)
Definition advances (auto : bool) (answers : list bool) : Z :=
  if auto then Z.of_nat (length answers)
  else Z.of_nat (length (List.filter (fun a => a) answers)).

(** A [conf] in which every setting the daemon reads is there, with the
    type it is read as. *)
Definition conf_ready (c : gmap string entry) : Prop :=
  (forall lv, In lv ["lv0"; "lv1"; "lv2"; "lv3"]%string ->
     exists th, Misc.threshold c lv = Some th)
  /\ (exists L, getitem2 c "time" "press" ≫= num_of = Some L)
  /\ (exists D, getitem2 c "time" "twice" ≫= num_of = Some D)
  /\ (exists a, getitem2 c "slider" "auto" = Some (PyBool a))
  /\ (exists t, Misc.get_sleep_time c ≫= num_of = Some t)
  /\ (exists click twice press,
        c !! "key" = Some (Dict {[ "click" := PyStr click;
                                   "twice" := PyStr twice;
                                   "press" := PyStr press ]})).

(** * Properties *)

(** ** Comparisons on [Q] *)

Lemma Qle_bool_true (a b : Q) : (a <= b)%Q -> Qle_bool a b = true.
Proof. apply Qle_bool_iff. Qed.

Lemma Qle_bool_false (a b : Q) : (b < a)%Q -> Qle_bool a b = false.
Proof.
  intros Hlt. destruct (Qle_bool a b) eqn:E; [|reflexivity].
  apply Qle_bool_iff in E. lra.
Qed.

Lemma Qle_bool_false_inv (a b : Q) : Qle_bool a b = false -> (b < a)%Q.
Proof.
  intros E. destruct (Qlt_le_dec b a) as [Hlt|Hle]; [exact Hlt|].
  apply Qle_bool_iff in Hle. congruence.
Qed.

(** ** [read_conf] *)

Section ReadConf.
Import Misc.

(** Whatever the [try] body had stored when it raised, the handler
    overwrites it all. *)
Lemma read_conf_except_absorbs (cfg : ConfigParser) (e : exn)
    (c : gmap string entry) :
  read_conf_try cfg ∅ = (Raise e, c) ->
  read_conf_except c = (Ok tt, documented_defaults).
Proof.
  unfold read_conf_try, bind, lift, store, store_top.
  repeat match goal with
         | |- context [match ?x with Ok _ => _ | Raise _ => _ end] =>
             destruct x
         end;
    intros H; inversion H; subst; reflexivity.
Qed.

(** C9: whenever the [try] body of [read_conf] raises, [read_conf] still
    returns normally, and what it returns is exactly the documented defaults:
    lv0..lv3 = 35/40/45/50, click = slider, twice = switch, press = none,
    double-click window 0.7 s, long press 1.8 s, slider auto = true, slider
    interval = 10 s. *)
Theorem read_conf_failure_gives_defaults (cfg : ConfigParser) (e : exn)
    (c : gmap string entry) :
  read_conf_try cfg ∅ = (Raise e, c) ->
  read_conf cfg = Ok documented_defaults
  /\ getitem2 documented_defaults "fan" "lv0" = Some (PyInt 35)
  /\ getitem2 documented_defaults "fan" "lv1" = Some (PyInt 40)
  /\ getitem2 documented_defaults "fan" "lv2" = Some (PyInt 45)
  /\ getitem2 documented_defaults "fan" "lv3" = Some (PyInt 50)
  /\ getitem2 documented_defaults "key" "click" = Some (PyStr "slider")
  /\ getitem2 documented_defaults "key" "twice" = Some (PyStr "switch")
  /\ getitem2 documented_defaults "key" "press" = Some (PyStr "none")
  /\ getitem2 documented_defaults "time" "twice" = Some (PyFloat 0.7)
  /\ getitem2 documented_defaults "time" "press" = Some (PyFloat 1.8)
  /\ getitem2 documented_defaults "slider" "auto" = Some (PyBool true)
  /\ getitem2 documented_defaults "slider" "time" = Some (PyInt 10).
Proof.
  intros Htry. split.
  - unfold read_conf, try_except. rewrite Htry.
    rewrite (read_conf_except_absorbs cfg e c Htry). reflexivity.
  - repeat split; reflexivity.
Qed.

Lemma read_conf_failure_gives_defaults_witness :
  read_conf Examples.cfg_fan_only = Ok documented_defaults.
Proof.
  refine (proj1 (read_conf_failure_gives_defaults Examples.cfg_fan_only
                   NoSectionError
                   (<["fan" := Dict {[ "lv0" := PyFloat 30; "lv1" := PyFloat 38;
                                       "lv2" := PyFloat 46; "lv3" := PyFloat 55 ]}]> ∅)
                   _)).
  reflexivity.
Defined.

End ReadConf.

(** ** [fan_temp2dc] *)

Section Fan.
Import Misc.
Local Open Scope Q_scope.

Variable conf : gmap string entry.

(** The loop returns either the initial [result] or a fraction of the
    table. *)
Lemma fan_temp2dc_loop_range (t : Q) (items : list (string * Q))
    (result r : Q) :
  fan_temp2dc_loop conf t items result = Some r ->
  r = result \/ exists lv, In (lv, r) items.
Proof.
  induction items as [|[lv dc] rest IH]; simpl.
  - intros [= <-]. now left.
  - destruct (threshold conf lv) as [th|]; simpl; [|discriminate].
    destruct (Qle_bool th t).
    + intros [= <-]. right. exists lv. now left.
    + intros H. destruct (IH H) as [->|[lv' Hin]]; [now left|].
      right. exists lv'. now right.
Qed.

(** The first item whose threshold is reached decides, whatever follows. *)
Lemma fan_temp2dc_loop_first (t : Q) (pre post : list (string * Q))
    (lv : string) (dc th result : Q) :
  (forall lv' dc', In (lv', dc') pre ->
     exists th', threshold conf lv' = Some th' /\ t < th') ->
  threshold conf lv = Some th -> th <= t ->
  fan_temp2dc_loop conf t (pre ++ (lv, dc) :: post) result = Some dc.
Proof.
  intros Hpre Hth Hle. induction pre as [|[lv' dc'] pre IH]; simpl.
  - rewrite Hth. simpl. now rewrite Qle_bool_true.
  - destruct (Hpre lv' dc') as (th' & -> & Hlt); [now left|]. simpl.
    rewrite Qle_bool_false by exact Hlt.
    apply IH. intros lv'' dc'' Hin. apply (Hpre lv'' dc''). now right.
Qed.

(** With every threshold of [items] readable, the loop ends, and it ends
    in one of two ways: at the first item whose threshold is reached, or
    past the last item with [result] untouched. *)
Lemma fan_temp2dc_loop_cases (t : Q) (items : list (string * Q))
    (result : Q) :
  (forall lv dc, In (lv, dc) items -> exists th, threshold conf lv = Some th) ->
  (exists pre lv dc post th,
      items = pre ++ (lv, dc) :: post
      /\ threshold conf lv = Some th /\ th <= t
      /\ (forall lv' dc', In (lv', dc') pre ->
            exists th', threshold conf lv' = Some th' /\ t < th')
      /\ fan_temp2dc_loop conf t items result = Some dc)
  \/ ((forall lv dc, In (lv, dc) items ->
         exists th, threshold conf lv = Some th /\ t < th)
      /\ fan_temp2dc_loop conf t items result = Some result).
Proof.
  induction items as [|[lv dc] rest IH]; intros Hdef.
  - right. split; [intros ? ? []|reflexivity].
  - destruct (Hdef lv dc) as [th Hth]; [now left|].
    destruct (Qle_bool th t) eqn:E.
    + left. exists [], lv, dc, rest, th.
      apply Qle_bool_iff in E. repeat split; try easy.
      simpl. rewrite Hth. simpl. now rewrite Qle_bool_true.
    + apply Qle_bool_false_inv in E.
      destruct IH as [(pre & lv1 & dc1 & post & th1 & -> & H1 & H2 & H3 & H4)
                     |[Hall Hres]].
      * intros lv' dc' Hin. apply (Hdef lv' dc'). now right.
      * left. exists ((lv, dc) :: pre), lv1, dc1, post, th1.
        repeat split; try easy.
        -- intros lv' dc' [[= <- <-]|Hin]; [now exists th|now apply (H3 lv' dc')].
        -- simpl. rewrite Hth. simpl. now rewrite Qle_bool_false.
      * right. split.
        -- intros lv' dc' [[= <- <-]|Hin]; [now exists th|now apply (Hall lv' dc')].
        -- simpl. rewrite Hth. simpl. now rewrite Qle_bool_false.
Qed.

Lemma lv2dc_descending : descending lv2dc FAN_DUTY_OFF.
Proof.
  unfold lv2dc, FAN_DUTY_OFF. simpl.
  repeat split; try lra;
    intros lv' dc' Hin; simpl in Hin;
    repeat (destruct Hin as [[= <- <-]|Hin]; [lra|]); destruct Hin.
Qed.

(** On such a table the value the loop leaves in [result] grows with the
    temperature. *)
Lemma fan_temp2dc_loop_monotone (t1 t2 : Q) (items : list (string * Q))
    (result r1 r2 : Q) :
  descending items result -> t1 <= t2 ->
  fan_temp2dc_loop conf t1 items result = Some r1 ->
  fan_temp2dc_loop conf t2 items result = Some r2 ->
  r1 <= r2.
Proof.
  intros Hdesc Ht. revert r1 r2.
  induction items as [|[lv dc] rest IH]; simpl; intros r1 r2.
  - intros [= <-] [= <-]. lra.
  - destruct Hdesc as (Hres & Hrest & Hdesc).
    destruct (threshold conf lv) as [th|]; simpl; [|discriminate].
    destruct (Qle_bool th t1) eqn:E1.
    + apply Qle_bool_iff in E1.
      rewrite Qle_bool_true by lra. intros [= <-] [= <-]. lra.
    + destruct (Qle_bool th t2) eqn:E2.
      * intros H1 [= <-].
        destruct (fan_temp2dc_loop_range _ _ _ _ H1) as [->|[lv' Hin]].
        -- exact Hres.
        -- exact (Hrest lv' r1 Hin).
      * now apply IH.
Qed.

End Fan.

Section FanClaims.
Import Misc.
Local Open Scope Q_scope.

Lemma fan_temp2dc_loop_lv2dc_range (conf : gmap string entry) (t r : Q) :
  fan_temp2dc_loop conf t lv2dc FAN_DUTY_OFF = Some r -> 0 <= r <= 1.
Proof.
  intros H. destruct (fan_temp2dc_loop_range conf _ _ _ _ H) as [->|[lv Hin]].
  - unfold FAN_DUTY_OFF. lra.
  - unfold lv2dc in Hin. simpl in Hin.
    repeat (destruct Hin as [[= <- <-]|Hin]; [lra|]). destruct Hin.
Qed.

(** C8: [fan_temp2dc] visits the levels in the order lv3, lv2, lv1, lv0;
    the first level whose threshold is at most the temperature alone fixes
    the returned duty (it is [duty2dc] of that level's fraction, and
    [duty2dc FAN_DUTY_OFF] when no level is reached); and the returned duty
    always lies in [0, 1]. *)
Theorem fan_temp2dc_highest_first (conf : gmap string entry)
    (th3 th2 th1 th0 t : Q) :
  threshold conf "lv3" = Some th3 ->
  threshold conf "lv2" = Some th2 ->
  threshold conf "lv1" = Some th1 ->
  threshold conf "lv0" = Some th0 ->
  map fst lv2dc = ["lv3"; "lv2"; "lv1"; "lv0"]%string
  /\ exists d,
       fan_temp2dc conf t = Some d
       /\ 0 <= d <= 1
       /\ ((exists pre lv dc post th,
              lv2dc = pre ++ (lv, dc) :: post
              /\ threshold conf lv = Some th /\ th <= t
              /\ (forall lv' dc', In (lv', dc') pre ->
                    exists th', threshold conf lv' = Some th' /\ t < th')
              /\ d = duty2dc dc)
           \/ ((forall lv dc, In (lv, dc) lv2dc ->
                  exists th, threshold conf lv = Some th /\ t < th)
               /\ d = duty2dc FAN_DUTY_OFF)).
Proof.
  intros H3 H2 H1 H0. split; [reflexivity|].
  assert (Hdef : forall lv dc, In (lv, dc) lv2dc ->
                   exists th, threshold conf lv = Some th).
  { intros lv dc Hin. unfold lv2dc in Hin. simpl in Hin.
    repeat (destruct Hin as [[= <- <-]|Hin]; [eauto|]). destruct Hin. }
  destruct (fan_temp2dc_loop_cases conf t lv2dc FAN_DUTY_OFF Hdef)
    as [(pre & lv & dc & post & th & Heq & Hth & Hle & Hpre & Hres)
       |[Hall Hres]].
  - exists (duty2dc dc). unfold fan_temp2dc. rewrite Hres. simpl.
    split; [reflexivity|]. split.
    + pose proof (fan_temp2dc_loop_lv2dc_range conf t dc Hres).
      unfold duty2dc. lra.
    + left. exists pre, lv, dc, post, th. repeat split; easy.
  - exists (duty2dc FAN_DUTY_OFF). unfold fan_temp2dc. rewrite Hres. simpl.
    split; [reflexivity|]. split.
    + unfold duty2dc, FAN_DUTY_OFF. lra.
    + right. split; [exact Hall|reflexivity].
Qed.

Lemma fan_temp2dc_highest_first_witness :
  exists d, fan_temp2dc documented_defaults 42 = Some d /\ 0 <= d <= 1.
Proof.
  destruct (fan_temp2dc_highest_first documented_defaults 50 45 40 35 42
              eq_refl eq_refl eq_refl eq_refl) as (_ & d & Hd & Hrange & _).
  exists d. split; [exact Hd|exact Hrange].
Defined.

Lemma fan_temp2dc_total (conf : gmap string entry) (th3 th2 th1 th0 t : Q) :
  threshold conf "lv3" = Some th3 ->
  threshold conf "lv2" = Some th2 ->
  threshold conf "lv1" = Some th1 ->
  threshold conf "lv0" = Some th0 ->
  exists r, fan_temp2dc_loop conf t lv2dc FAN_DUTY_OFF = Some r
            /\ fan_temp2dc conf t = Some (duty2dc r).
Proof.
  intros H3 H2 H1 H0. unfold fan_temp2dc, lv2dc. simpl.
  rewrite H3, H2, H1, H0. simpl.
  destruct (Qle_bool th3 t); [eexists; split; reflexivity|].
  destruct (Qle_bool th2 t); [eexists; split; reflexivity|].
  destruct (Qle_bool th1 t); [eexists; split; reflexivity|].
  destruct (Qle_bool th0 t); eexists; split; reflexivity.
Qed.

Lemma fan_temp2dc_below_all (conf : gmap string entry)
    (th3 th2 th1 th0 t : Q) :
  threshold conf "lv3" = Some th3 ->
  threshold conf "lv2" = Some th2 ->
  threshold conf "lv1" = Some th1 ->
  threshold conf "lv0" = Some th0 ->
  t < th3 -> t < th2 -> t < th1 -> t < th0 ->
  fan_temp2dc conf t = Some (duty2dc FAN_DUTY_OFF).
Proof.
  intros H3 H2 H1 H0 L3 L2 L1 L0. unfold fan_temp2dc, lv2dc. simpl.
  rewrite H3, H2, H1, H0. simpl.
  now rewrite !Qle_bool_false by assumption.
Qed.

(** C1, as the code has it: with the thresholds lv0..lv3 = 35/40/45/50,
    [fan_temp2dc] returns 0.5 at 42 degrees and 1.0 at 30 degrees.  The
    returned number is [duty2dc] of the fan-speed fraction, 1.0 minus it: the
    fan is off at a returned 1.0 (every temperature below 35) and at full
    speed at a returned 0.0 (every temperature from 50 on). *)
Theorem fan_temp2dc_stock_table (conf : gmap string entry)
    (th3 th2 th1 th0 : Q) :
  threshold conf "lv3" = Some th3 -> th3 == 50 ->
  threshold conf "lv2" = Some th2 -> th2 == 45 ->
  threshold conf "lv1" = Some th1 -> th1 == 40 ->
  threshold conf "lv0" = Some th0 -> th0 == 35 ->
  (exists d, fan_temp2dc conf 42 = Some d /\ d == 0.5)
  /\ (exists d, fan_temp2dc conf 30 = Some d /\ d == 1.0)
  /\ (forall t, t < 35 ->
        fan_temp2dc conf t = Some (duty2dc FAN_DUTY_OFF)
        /\ duty2dc FAN_DUTY_OFF == 1.0)
  /\ (forall t, 50 <= t ->
        fan_temp2dc conf t = Some (duty2dc FAN_DUTY_ON)
        /\ duty2dc FAN_DUTY_ON == 0.0).
Proof.
  intros H3 E3 H2 E2 H1 E1 H0 E0.
  assert (Hoff : forall t, t < 35 ->
            fan_temp2dc conf t = Some (duty2dc FAN_DUTY_OFF)).
  { intros t Ht.
    apply (fan_temp2dc_below_all conf th3 th2 th1 th0); try assumption; lra. }
  assert (Eoff : duty2dc FAN_DUTY_OFF == 1.0)
    by (unfold duty2dc, FAN_DUTY_OFF; lra).
  assert (Eon : duty2dc FAN_DUTY_ON == 0.0)
    by (unfold duty2dc, FAN_DUTY_ON; lra).
  split; [|split; [|split]].
  - exists (duty2dc 0.5). split; [|unfold duty2dc; lra].
    unfold fan_temp2dc, lv2dc. simpl. rewrite H3, H2, H1. simpl.
    rewrite (Qle_bool_false th3) by lra.
    rewrite (Qle_bool_false th2) by lra.
    now rewrite (Qle_bool_true th1) by lra.
  - exists (duty2dc FAN_DUTY_OFF). split; [apply Hoff; lra|exact Eoff].
  - intros t Ht. split; [now apply Hoff|exact Eoff].
  - intros t Ht. split; [|exact Eon].
    unfold fan_temp2dc, lv2dc. simpl. rewrite H3. simpl.
    now rewrite (Qle_bool_true th3) by lra.
Qed.

Lemma fan_temp2dc_stock_table_witness :
  exists d, fan_temp2dc documented_defaults 42 = Some d /\ d == 0.5.
Proof.
  refine (proj1 (fan_temp2dc_stock_table documented_defaults 50 45 40 35
                   eq_refl _ eq_refl _ eq_refl _ eq_refl _));
    reflexivity.
Defined.

(** C1 as stated fails: with the defaults in force, the value returned at
    30 degrees is not 0.0. *)
Lemma fan_temp2dc_30_is_not_zero :
  ~ ((exists d, fan_temp2dc (Examples.conf_of Examples.cfg_missing) 42 = Some d
                /\ d == 0.5)
     /\ (exists d, fan_temp2dc (Examples.conf_of Examples.cfg_missing) 30 = Some d
                   /\ d == 0.0)).
Proof.
  intros [_ (d & Hd & Hz)]. vm_compute in Hd.
  injection Hd as <-. vm_compute in Hz. discriminate Hz.
Qed.

(** C2, as the code has it: for a table with its four thresholds,
    [fan_temp2dc] always returns, the returned duty never grows with the
    temperature (the fraction it is taken from, the local [result], never
    shrinks), and below all four thresholds the returned duty is
    [duty2dc FAN_DUTY_OFF], that is 1.0. *)
Theorem fan_temp2dc_antitone (conf : gmap string entry)
    (th3 th2 th1 th0 : Q) :
  threshold conf "lv3" = Some th3 ->
  threshold conf "lv2" = Some th2 ->
  threshold conf "lv1" = Some th1 ->
  threshold conf "lv0" = Some th0 ->
  (forall t1 t2, t1 <= t2 ->
     exists r1 r2,
       fan_temp2dc_loop conf t1 lv2dc FAN_DUTY_OFF = Some r1
       /\ fan_temp2dc_loop conf t2 lv2dc FAN_DUTY_OFF = Some r2
       /\ fan_temp2dc conf t1 = Some (duty2dc r1)
       /\ fan_temp2dc conf t2 = Some (duty2dc r2)
       /\ r1 <= r2
       /\ duty2dc r2 <= duty2dc r1)
  /\ (forall t, t < th3 -> t < th2 -> t < th1 -> t < th0 ->
        fan_temp2dc conf t = Some (duty2dc FAN_DUTY_OFF)
        /\ duty2dc FAN_DUTY_OFF == 1.0).
Proof.
  intros H3 H2 H1 H0. split.
  - intros t1 t2 Ht.
    destruct (fan_temp2dc_total conf th3 th2 th1 th0 t1 H3 H2 H1 H0)
      as (r1 & Hr1 & Hd1).
    destruct (fan_temp2dc_total conf th3 th2 th1 th0 t2 H3 H2 H1 H0)
      as (r2 & Hr2 & Hd2).
    exists r1, r2.
    assert (Hle : r1 <= r2).
    { exact (fan_temp2dc_loop_monotone conf t1 t2 lv2dc FAN_DUTY_OFF r1 r2
               lv2dc_descending Ht Hr1 Hr2). }
    split; [exact Hr1|]. split; [exact Hr2|]. split; [exact Hd1|].
    split; [exact Hd2|]. split; [exact Hle|]. unfold duty2dc. lra.
  - intros t L3 L2 L1 L0. split.
    + now apply (fan_temp2dc_below_all conf th3 th2 th1 th0).
    + unfold duty2dc, FAN_DUTY_OFF. lra.
Qed.

Lemma fan_temp2dc_antitone_witness :
  exists r1 r2,
    fan_temp2dc documented_defaults 30 = Some (duty2dc r1)
    /\ fan_temp2dc documented_defaults 42 = Some (duty2dc r2)
    /\ duty2dc r2 <= duty2dc r1.
Proof.
  destruct (proj1 (fan_temp2dc_antitone documented_defaults 50 45 40 35
                     eq_refl eq_refl eq_refl eq_refl) 30 42)
    as (r1 & r2 & _ & _ & H1 & H2 & _ & Hle).
  - vm_compute. discriminate.
  - exists r1, r2. split; [exact H1|]. split; [exact H2|exact Hle].
Defined.

(** C2 as stated fails: with the defaults in force the returned duty goes
    down, from 1.0 at 30 degrees to 0.5 at 42 degrees. *)
Lemma fan_temp2dc_is_not_monotone :
  ~ (forall t1 t2 d1 d2, t1 <= t2 ->
       fan_temp2dc (Examples.conf_of Examples.cfg_missing) t1 = Some d1 ->
       fan_temp2dc (Examples.conf_of Examples.cfg_missing) t2 = Some d2 ->
       d1 <= d2).
Proof.
  intros H.
  assert (Hle : (30 <= 42)%Q) by (vm_compute; discriminate).
  specialize (H 30 42 _ _ Hle eq_refl eq_refl).
  vm_compute in H. apply H. reflexivity.
Qed.

End FanClaims.

(** ** [read_key_events]: one iteration at a time *)

Section KeyLoopSteps.
Import Misc.
Local Open Scope Q_scope.

Variables L D : Q.

(** Nothing pending and no timeout: the generator stays blocked. *)
Lemma key_loop_blocked (fuel : nat) (c : Z) (b : bool) (t : Q) :
  key_loop L D (S fuel)
    {| click_count := c; wait := None; ignore_release := b |}
    {| now := t; pending := [] |}
  = Some ([], {| click_count := c; wait := None; ignore_release := b |}).
Proof. reflexivity. Qed.

(** The wait runs out before the next edge. *)
Lemma key_loop_timeout (fuel : nat) (c : Z) (b : bool) (t w : Q)
    (q : list (Q * edge_type)) :
  next_after (t + w) q ->
  key_loop L D (S fuel)
    {| click_count := c; wait := Some w; ignore_release := b |}
    {| now := t; pending := q |}
  = (let '(ys, s1) :=
       timed_out {| click_count := c; wait := Some w; ignore_release := b |} in
     '(out, sf) ← key_loop L D fuel s1 {| now := t + w; pending := q |};
     Some (map (pair (t + w)) ys ++ out, sf)).
Proof.
  intros Hq. cbn [key_loop]. unfold wait_edge_events. cbn [pending now wait].
  destruct q as [|[ts e] q]; [reflexivity|].
  cbn [next_after] in Hq. now rewrite Qle_bool_false by exact Hq.
Qed.

Lemma take_ready_none (t : Q) (q : list (Q * edge_type)) :
  next_after t q -> take_ready t q = ([], q).
Proof.
  destruct q as [|[ts e] q]; [reflexivity|]. cbn [next_after take_ready].
  intros Hq. now rewrite Qle_bool_false by exact Hq.
Qed.

(** A single edge arrives in time and is the only one read. *)
Lemma key_loop_edge (fuel : nat) (s : locals) (t ts : Q) (e : edge_type)
    (q : list (Q * edge_type)) :
  within (wait s) t ts -> t <= ts -> next_after ts q ->
  key_loop L D (S fuel) s {| now := t; pending := (ts, e) :: q |}
  = (let '(ys, s1) := edge_event L D s e in
     '(out, sf) ← key_loop L D fuel s1 {| now := ts; pending := q |};
     Some (map (pair ts) ys ++ out, sf)).
Proof.
  intros Hin Hle Hq. cbn [key_loop].
  assert (Hwake : wait_edge_events (wait s)
                    {| now := t; pending := (ts, e) :: q |}
                  = Woke true {| now := ts; pending := (ts, e) :: q |}).
  { unfold wait_edge_events, later. cbn [pending now].
    rewrite (Qle_bool_true t ts) by exact Hle.
    destruct (wait s) as [w|]; [|reflexivity].
    cbn [within] in Hin. now rewrite Qle_bool_true by exact Hin. }
  rewrite Hwake. unfold read_edge_events. cbn [pending now take_ready].
  rewrite (Qle_bool_true ts ts) by apply Qle_refl.
  rewrite (take_ready_none ts q Hq). cbn [edge_events].
  destruct (edge_event L D s e) as [ys s1]. now rewrite app_nil_r.
Qed.

(** The transitions of the locals, case by case. *)

Lemma timed_out_idle (w : option Q) (b : bool) :
  timed_out {| click_count := 0; wait := w; ignore_release := b |}
  = ([event_long],
     {| click_count := 0; wait := None; ignore_release := true |}).
Proof. reflexivity. Qed.

Lemma timed_out_one_click (w : option Q) (b : bool) :
  timed_out {| click_count := 1; wait := w; ignore_release := b |}
  = ([event_single],
     {| click_count := 0; wait := None; ignore_release := b |}).
Proof. reflexivity. Qed.

Lemma press_idle (w : option Q) (b : bool) :
  edge_event L D {| click_count := 0; wait := w; ignore_release := b |}
    FALLING_EDGE
  = ([], {| click_count := 0; wait := Some L; ignore_release := b |}).
Proof. reflexivity. Qed.

Lemma press_after_click (w : option Q) (b : bool) :
  edge_event L D {| click_count := 1; wait := w; ignore_release := b |}
    FALLING_EDGE
  = ([], {| click_count := 1; wait := w; ignore_release := b |}).
Proof. reflexivity. Qed.

Lemma release_ignored (c : Z) (w : option Q) :
  edge_event L D {| click_count := c; wait := w; ignore_release := true |}
    RISING_EDGE
  = ([], {| click_count := c; wait := w; ignore_release := false |}).
Proof. reflexivity. Qed.

Lemma release_first (w : option Q) :
  edge_event L D {| click_count := 0; wait := w; ignore_release := false |}
    RISING_EDGE
  = ([], {| click_count := 1; wait := Some D; ignore_release := false |}).
Proof. reflexivity. Qed.

Lemma release_second :
  edge_event L D
    {| click_count := 1; wait := Some D; ignore_release := false |}
    RISING_EDGE
  = ([event_double],
     {| click_count := 0; wait := None; ignore_release := false |}).
Proof.
  unfold edge_event. cbn [click_count wait ignore_release].
  change (1 + 1 =? 2)%Z with true. change (1 + 1 =? 1)%Z with false.
  cbn [andb wait_eq]. now rewrite Qeq_bool_refl.
Qed.

End KeyLoopSteps.

(** *** The fuel of [enough] is enough *)

Section KeyLoopTotal.
Import Misc.
Local Open Scope Q_scope.

Variables L D : Q.

Lemma later_reached (t ts : Q) : Qle_bool ts (later t ts) = true.
Proof.
  unfold later. destruct (Qle_bool t ts) eqn:E.
  - apply Qle_bool_true, Qle_refl.
  - apply Qle_bool_false_inv in E. apply Qle_bool_true. lra.
Qed.

Lemma take_ready_length (t : Q) (q : list (Q * edge_type)) :
  (length (snd (take_ready t q)) <= length q)%nat.
Proof.
  induction q as [|[ts e] q IH]; cbn [take_ready]; [reflexivity|].
  destruct (Qle_bool ts t); [|reflexivity].
  destruct (take_ready t q) as [es rest]. cbn [snd length] in *. lia.
Qed.

(** A timeout leaves no wait armed, so two timeouts never follow each
    other. *)
Lemma timed_out_wait (s : locals) : wait (snd (timed_out s)) = None.
Proof. reflexivity. Qed.

Lemma key_loop_total_measure (fuel : nat) (s : locals) (r : request) :
  (key_loop_measure s r <= fuel)%nat ->
  exists out sf, key_loop L D fuel s r = Some (out, sf).
Proof.
  revert s r. induction fuel as [|fuel IH]; intros s r Hm.
  - unfold key_loop_measure in Hm. lia.
  - cbn [key_loop]. destruct r as [t q]. unfold wait_edge_events.
    cbn [pending now]. unfold key_loop_measure in Hm. cbn [pending] in Hm.
    assert (Hready : forall ts e q',
              q = (ts, e) :: q' ->
              exists out sf,
                (let '(es, r2) :=
                   read_edge_events {| now := later t ts; pending := q |} in
                 let '(ys, s1) := edge_events L D s es in
                 '(out, sf) ← key_loop L D fuel s1 r2;
                 Some (map (pair (now r2)) ys ++ out, sf))
                = Some (out, sf)).
    { intros ts e q' ->. unfold read_edge_events.
      cbn [pending now take_ready]. rewrite later_reached.
      pose proof (take_ready_length (later t ts) q') as Hlen.
      destruct (take_ready (later t ts) q') as [es rest].
      cbn [snd] in Hlen.
      destruct (edge_events L D s (e :: es)) as [ys s1].
      destruct (IH s1 {| now := later t ts; pending := rest |})
        as (out & sf & ->).
      { unfold key_loop_measure. cbn [pending]. cbn [length] in Hm.
        destruct (wait s1), (wait s); lia. }
      cbn [mbind option_bind]. eauto. }
    assert (Htimeout : forall w,
              wait s = Some w ->
              exists out sf,
                (let '(ys, s1) := timed_out s in
                 '(out, sf) ← key_loop L D fuel s1
                                {| now := t + w; pending := q |};
                 Some (map (pair (now {| now := t + w; pending := q |})) ys
                       ++ out, sf))
                = Some (out, sf)).
    { intros w Hw. pose proof (timed_out_wait s) as Hnone.
      destruct (timed_out s) as [ys s1]. cbn [snd] in Hnone.
      destruct (IH s1 {| now := t + w; pending := q |}) as (out & sf & ->).
      { unfold key_loop_measure. cbn [pending]. rewrite Hnone.
        rewrite Hw in Hm. lia. }
      cbn [mbind option_bind]. eauto. }
    destruct q as [|[ts e] q'].
    + destruct (wait s) as [w|] eqn:Hw; [|eauto].
      exact (Htimeout w eq_refl).
    + destruct (wait s) as [w|] eqn:Hw.
      * destruct (Qle_bool ts (t + w)).
        -- exact (Hready ts e q' eq_refl).
        -- exact (Htimeout w eq_refl).
      * exact (Hready ts e q' eq_refl).
Qed.

(** [read_key_events] never stops for lack of fuel: from any locals and on
    any request the loop reaches the point where it blocks for good. *)
Lemma key_loop_total (s : locals) (r : request) :
  exists out sf, key_loop L D (enough r) s r = Some (out, sf).
Proof.
  apply key_loop_total_measure. unfold key_loop_measure, enough.
  destruct (wait s); lia.
Qed.

End KeyLoopTotal.

Create Rewrite HintDb key_events.
#[local] Hint Rewrite timed_out_idle timed_out_one_click press_idle
  press_after_click release_ignored release_first release_second
  : key_events.

(** Runs one iteration of [key_loop] symbolically, using the order of the
    instants found among the hypotheses. *)
Ltac key_side :=
  cbn [Misc.within Misc.next_after Misc.wait]; first [exact I | lra].

Ltac key_simpl :=
  autorewrite with key_events;
  cbn [mbind option_bind map app Misc.event_long Misc.event_single
       Misc.event_double].

Ltac key_step :=
  first
    [ rewrite key_loop_edge by key_side
    | rewrite key_loop_timeout by key_side
    | rewrite key_loop_blocked ];
  key_simpl.

Ltac key_start HL HD :=
  unfold Misc.read_key_events, Misc.read_key_events_from;
  rewrite HL, HD;
  cbn [mbind option_bind Misc.enough Misc.pending length Nat.mul Nat.add];
  unfold Misc.locals_initial.

Section KeyClaims.
Import Misc.
Local Open Scope Q_scope.

(** C4, as the code has it: a single press released before the long-press
    time is over (not: before the double-click window is over), with no
    edge after it, makes [read_key_events] yield exactly one "click", at the
    instant the double-click window opened by the release runs out. *)
Theorem single_click_after_window (conf : gmap string entry)
    (L D t0 tp tr : Q) :
  getitem2 conf "time" "press" ≫= num_of = Some L ->
  getitem2 conf "time" "twice" ≫= num_of = Some D ->
  t0 <= tp -> tp < tr -> tr < tp + L ->
  read_key_events conf
    {| now := t0; pending := [(tp, FALLING_EDGE); (tr, RISING_EDGE)] |}
  = Some ([(tr + D, "click"%string)], locals_initial).
Proof.
  intros HL HD H0 H1 H2. key_start HL HD.
  do 4 key_step. reflexivity.
Qed.

Lemma single_click_after_window_witness :
  read_key_events documented_defaults
    {| now := 0; pending := [(0, FALLING_EDGE); (0.5, RISING_EDGE)] |}
  = Some ([(0.5 + 0.7, "click"%string)], locals_initial).
Proof.
  apply (single_click_after_window documented_defaults 1.8 0.7 0 0 0.5);
    first [reflexivity | lra].
Defined.

(** C4 as stated fails: with [twice = 3.0] and [press = 1.8] in the file, a
    press released after 2 s, inside the double-click window, is reported
    as a long press and not as a click. *)
Lemma click_inside_window_is_long_press :
  ~ (exists out sf,
       read_key_events (Examples.conf_of (Examples.cfg_file 3.0 1.8 true))
         {| now := 0; pending := [(0, FALLING_EDGE); (2, RISING_EDGE)] |}
       = Some (out, sf)
       /\ gestures out = ["click"%string]).
Proof.
  intros (out & sf & Hrun & Hg). vm_compute in Hrun.
  injection Hrun as <- <-. discriminate Hg.
Qed.

(** C5, as the code has it: press, release, press, release, where the first
    press is released before the long-press time is over and each of the two
    following edges comes less than the double-click window after the edge
    before it (as they do when the second release falls inside the window
    opened by the first), makes [read_key_events] yield exactly one "twice",
    at the second release, and nothing else. *)
Theorem double_click_inside_window (conf : gmap string entry)
    (L D t0 p1 r1 p2 r2 : Q) :
  getitem2 conf "time" "press" ≫= num_of = Some L ->
  getitem2 conf "time" "twice" ≫= num_of = Some D ->
  t0 <= p1 -> p1 < r1 -> r1 < p1 + L ->
  r1 < p2 -> p2 < r1 + D ->
  p2 < r2 -> r2 < p2 + D ->
  read_key_events conf
    {| now := t0;
       pending := [(p1, FALLING_EDGE); (r1, RISING_EDGE);
                   (p2, FALLING_EDGE); (r2, RISING_EDGE)] |}
  = Some ([(r2, "twice"%string)], locals_initial).
Proof.
  intros HL HD H0 H1 H2 H3 H4 H5 H6. key_start HL HD.
  do 5 key_step. reflexivity.
Qed.

Lemma double_click_inside_window_witness :
  read_key_events documented_defaults
    {| now := 0;
       pending := [(0, FALLING_EDGE); (0.1, RISING_EDGE);
                   (0.4, FALLING_EDGE); (0.5, RISING_EDGE)] |}
  = Some ([(0.5, "twice"%string)], locals_initial).
Proof.
  apply (double_click_inside_window documented_defaults 1.8 0.7
           0 0 0.1 0.4 0.5);
    first [reflexivity | lra].
Defined.

(** C5 as stated fails: with [twice = 3.0] and [press = 1.8] in the file,
    press at 0, release at 2, press at 2.1 and release at 2.2 all lie
    inside one double-click window, and what is yielded is a long press
    followed by a click. *)
Lemma double_click_inside_window_is_press_click :
  ~ (exists out sf,
       read_key_events (Examples.conf_of (Examples.cfg_file 3.0 1.8 true))
         {| now := 0;
            pending := [(0, FALLING_EDGE); (2, RISING_EDGE);
                        (2.1, FALLING_EDGE); (2.2, RISING_EDGE)] |}
       = Some (out, sf)
       /\ gestures out = ["twice"%string]).
Proof.
  intros (out & sf & Hrun & Hg). vm_compute in Hrun.
  injection Hrun as <- <-. discriminate Hg.
Qed.

(** C6, as the code has it: a press that arrives while the click counter is
    0 and no wait is armed, and that is held beyond the long-press time,
    makes the generator yield exactly one "press", at the instant the
    long-press time runs out, and set the ignore flag.  The release that
    follows yields nothing, leaves the click counter at 0 and clears the
    flag; a further release is counted again. *)
Theorem long_press_from_idle (conf : gmap string entry) (L D t0 tp : Q)
    (b : bool) :
  getitem2 conf "time" "press" ≫= num_of = Some L ->
  getitem2 conf "time" "twice" ≫= num_of = Some D ->
  t0 <= tp ->
  read_key_events_from conf
    {| click_count := 0; wait := None; ignore_release := b |}
    {| now := t0; pending := [(tp, FALLING_EDGE)] |}
  = Some ([(tp + L, "press"%string)],
          {| click_count := 0; wait := None; ignore_release := true |})
  /\ (forall tr, tp < tr -> tp + L < tr ->
        read_key_events_from conf
          {| click_count := 0; wait := None; ignore_release := b |}
          {| now := t0;
             pending := [(tp, FALLING_EDGE); (tr, RISING_EDGE)] |}
        = Some ([(tp + L, "press"%string)],
                {| click_count := 0; wait := None;
                   ignore_release := false |}))
  /\ (forall tr tr', tp < tr -> tp + L < tr -> tr < tr' ->
        read_key_events_from conf
          {| click_count := 0; wait := None; ignore_release := b |}
          {| now := t0;
             pending := [(tp, FALLING_EDGE); (tr, RISING_EDGE);
                         (tr', RISING_EDGE)] |}
        = Some ([(tp + L, "press"%string); (tr' + D, "click"%string)],
                {| click_count := 0; wait := None;
                   ignore_release := false |})).
Proof.
  intros HL HD H0. split; [|split].
  - key_start HL HD. do 3 key_step. reflexivity.
  - intros tr H1 H2. key_start HL HD. do 4 key_step. reflexivity.
  - intros tr tr' H1 H2 H3. key_start HL HD. do 6 key_step. reflexivity.
Qed.

Lemma long_press_from_idle_witness :
  read_key_events documented_defaults
    {| now := 0; pending := [(0, FALLING_EDGE); (5, RISING_EDGE)] |}
  = Some ([(0 + 1.8, "press"%string)], locals_initial).
Proof.
  refine (proj1 (proj2 (long_press_from_idle documented_defaults 1.8 0.7
                          0 0 false eq_refl eq_refl _)) 5 _ _); lra.
Defined.

(** C6 as stated fails: with the defaults in force, in press at 0, release
    at 0.1, press at 0.3, release at 5 the second press is held for 4.7 s
    and no "press" is yielded; the run yields two clicks. *)
Lemma held_second_press_is_not_long_press :
  ~ (exists out sf,
       read_key_events (Examples.conf_of Examples.cfg_missing)
         {| now := 0;
            pending := [(0, FALLING_EDGE); (0.1, RISING_EDGE);
                        (0.3, FALLING_EDGE); (5, RISING_EDGE)] |}
       = Some (out, sf)
       /\ count_gesture "press" out = 1%nat).
Proof.
  intros (out & sf & Hrun & Hg). vm_compute in Hrun.
  injection Hrun as <- <-. discriminate Hg.
Qed.

(** C7, as the code has it: with a double-click window of 0.7 s, a first
    release at 0.0 and a second press and release by 0.5 yield one "twice";
    a first release at 0.0 and a second release at 0.9 yield two "click",
    the first at 0.7 and the second when the window opened by the second
    release runs out, provided the second press comes after the window has
    run out at 0.7 (and is released before the long-press time is over). *)
Theorem double_click_window_scenarios (conf : gmap string entry)
    (L t0 p1 p2 : Q) :
  getitem2 conf "time" "press" ≫= num_of = Some L ->
  getitem2 conf "time" "twice" ≫= num_of = Some 0.7 ->
  t0 <= p1 -> p1 < 0 -> 0 < p1 + L ->
  (0 < p2 -> p2 < 0.5 ->
   read_key_events conf
     {| now := t0;
        pending := [(p1, FALLING_EDGE); (0.0, RISING_EDGE);
                    (p2, FALLING_EDGE); (0.5, RISING_EDGE)] |}
   = Some ([(0.5, "twice"%string)], locals_initial))
  /\ (0.7 < p2 -> p2 < 0.9 -> 0.9 < p2 + L ->
      exists t1 t2,
        read_key_events conf
          {| now := t0;
             pending := [(p1, FALLING_EDGE); (0.0, RISING_EDGE);
                         (p2, FALLING_EDGE); (0.9, RISING_EDGE)] |}
        = Some ([(t1, "click"%string); (t2, "click"%string)], locals_initial)
        /\ t1 == 0.7 /\ t2 == 0.9 + 0.7).
Proof.
  intros HL HD H0 H1 H2. split.
  - intros H3 H4. key_start HL HD. do 5 key_step. reflexivity.
  - intros H3 H4 H5. exists (0.0 + 0.7), (0.9 + 0.7).
    split; [|split; [lra|reflexivity]].
    key_start HL HD. do 7 key_step. reflexivity.
Qed.

Lemma double_click_window_scenarios_witness :
  read_key_events documented_defaults
    {| now := -0.1;
       pending := [(-0.1, FALLING_EDGE); (0.0, RISING_EDGE);
                   (0.4, FALLING_EDGE); (0.5, RISING_EDGE)] |}
  = Some ([(0.5, "twice"%string)], locals_initial)
  /\ exists t1 t2,
       read_key_events documented_defaults
         {| now := -0.1;
            pending := [(-0.1, FALLING_EDGE); (0.0, RISING_EDGE);
                        (0.8, FALLING_EDGE); (0.9, RISING_EDGE)] |}
       = Some ([(t1, "click"%string); (t2, "click"%string)], locals_initial)
       /\ t1 == 0.7 /\ t2 == 0.9 + 0.7.
Proof.
  split.
  - refine (proj1 (double_click_window_scenarios documented_defaults 1.8
                     (-0.1) (-0.1) 0.4 eq_refl eq_refl _ _ _) _ _); lra.
  - refine (proj2 (double_click_window_scenarios documented_defaults 1.8
                     (-0.1) (-0.1) 0.8 eq_refl eq_refl _ _ _) _ _ _); lra.
Defined.

(** C7 as stated fails: with the defaults in force, a first release at 0.0
    and a second release at 0.9 whose press comes at 0.5, before the window
    has run out, restart the wait at 0.5 and yield one "twice", not two
    clicks. *)
Lemma second_press_inside_window_is_double_click :
  ~ (exists out sf,
       read_key_events (Examples.conf_of Examples.cfg_missing)
         {| now := -0.1;
            pending := [(-0.1, FALLING_EDGE); (0.0, RISING_EDGE);
                        (0.5, FALLING_EDGE); (0.9, RISING_EDGE)] |}
       = Some (out, sf)
       /\ gestures out = ["click"; "click"]%string).
Proof.
  intros (out & sf & Hrun & Hg). vm_compute in Hrun.
  injection Hrun as <- <-. discriminate Hg.
Qed.

End KeyClaims.

(** ** [auto_slider] *)

Section SliderLoop.
Import Oled.

Variable conf : gmap string entry.
Variable auto : pyval.
Variable timeout : Q.
Hypothesis conf_auto : getitem2 conf "slider" "auto" = Some auto.
Hypothesis conf_time : Misc.get_sleep_time conf ≫= num_of = Some timeout.

(** What one iteration does, once the two settings are known. *)
Lemma auto_slider_body_eq (is_set : bool) (s : slider_state) :
  auto_slider_body conf is_set s
  = Some ((if truthy auto || slide s
           then [DrawText (gen_pages ((idx s + 1) mod 3)); DispShow]
           else [DrawText (gen_pages (idx s)); DispShow])
          ++ [EventClear; EventWait timeout],
          {| idx := if truthy auto || slide s
                    then ((idx s + 1) mod 3)%Z else idx s;
             slide := is_set |}).
Proof.
  unfold auto_slider_body. rewrite conf_auto. cbn [mbind option_bind].
  destruct (truthy auto || slide s); cbn [slider refresh];
    rewrite conf_time; reflexivity.
Qed.

Lemma auto_slider_loop_total (answers : list bool) (s : slider_state) :
  exists acts s', auto_slider_loop conf answers s = Some (acts, s').
Proof.
  revert s. induction answers as [|a rest IH]; intros s; cbn [auto_slider_loop].
  - now exists [], s.
  - rewrite auto_slider_body_eq. cbn [mbind option_bind].
    destruct (IH {| idx := if truthy auto || slide s
                            then ((idx s + 1) mod 3)%Z else idx s;
                    slide := a |}) as (acts & s' & ->).
    cbn [mbind option_bind]. eauto.
Qed.

(** Running the loop on [l1 ++ l2] is running it on [l1] and going on with
    [l2]. *)
Lemma auto_slider_loop_app (l1 l2 : list bool) (s : slider_state) :
  auto_slider_loop conf (l1 ++ l2) s
  = '(acts1, s1) ← auto_slider_loop conf l1 s;
    '(acts2, s2) ← auto_slider_loop conf l2 s1;
    Some (acts1 ++ acts2, s2).
Proof.
  revert s. induction l1 as [|a l1 IH]; intros s.
  - cbn [app auto_slider_loop mbind option_bind].
    destruct (auto_slider_loop conf l2 s) as [[acts2 s2]|]; reflexivity.
  - cbn [app auto_slider_loop]. rewrite auto_slider_body_eq.
    cbn [mbind option_bind]. rewrite IH.
    destruct (auto_slider_loop conf l1 _) as [[acts1 s1]|];
      cbn [mbind option_bind]; [|reflexivity].
    destruct (auto_slider_loop conf l2 s1) as [[acts2 s2]|];
      cbn [mbind option_bind]; [|reflexivity].
    now rewrite app_assoc.
Qed.

(** After an iteration, [slide] holds the answer of [is_set] and [idx] is a
    page number, provided it was one before or the iteration slid. *)
Lemma auto_slider_loop_last (pre : list bool) (prev : bool)
    (s s' : slider_state) (acts : list action) :
  slide s = true \/ (0 <= idx s < 3)%Z ->
  auto_slider_loop conf (pre ++ [prev]) s = Some (acts, s') ->
  slide s' = prev /\ (0 <= idx s' < 3)%Z.
Proof.
  revert s acts. induction pre as [|a pre IH]; intros s acts Hs.
  - cbn [app auto_slider_loop]. rewrite auto_slider_body_eq.
    cbn [mbind option_bind]. intros [= _ <-]. cbn [slide idx]. split; [reflexivity|].
    destruct Hs as [->|Hr].
    + rewrite orb_true_r. apply Z.mod_pos_bound. lia.
    + destruct (truthy auto || slide s); [apply Z.mod_pos_bound; lia|exact Hr].
  - cbn [app auto_slider_loop]. rewrite auto_slider_body_eq.
    cbn [mbind option_bind].
    destruct (auto_slider_loop conf (pre ++ [prev]) _) as [[acts1 s1]|] eqn:E;
      cbn [mbind option_bind]; [|discriminate].
    intros [= _ <-]. eapply IH; [|exact E]. right. cbn [idx].
    destruct Hs as [->|Hr].
    + rewrite orb_true_r. apply Z.mod_pos_bound. lia.
    + destruct (truthy auto || slide s); [apply Z.mod_pos_bound; lia|exact Hr].
Qed.

End SliderLoop.

Section SliderClaims.
Import Oled.

(** C3, as the code has it: on every iteration of [auto_slider] after the
    first, if auto-rotation is enabled or [slide_event] was found set after
    the previous wait, the page index moves on by one modulo 3 and the new
    page is drawn; otherwise the current page is drawn again and the index
    stays; then the event is cleared, and then waited for, for at most the
    slider time. *)
Theorem auto_slider_later_iterations (conf : gmap string entry)
    (auto : pyval) (timeout : Q) (pre : list bool) (prev cur : bool) :
  getitem2 conf "slider" "auto" = Some auto ->
  Misc.get_sleep_time conf ≫= num_of = Some timeout ->
  exists acts s,
    auto_slider conf (pre ++ [prev]) = Some (acts, s)
    /\ slide s = prev
    /\ (0 <= idx s < 3)%Z
    /\ auto_slider conf (pre ++ [prev; cur])
       = Some (acts
               ++ (if truthy auto || prev
                   then [DrawText (gen_pages ((idx s + 1) mod 3)); DispShow]
                   else [DrawText (gen_pages (idx s)); DispShow])
               ++ [EventClear; EventWait timeout],
               {| idx := if truthy auto || prev
                         then ((idx s + 1) mod 3)%Z else idx s;
                  slide := cur |}).
Proof.
  intros Hauto Htime. unfold auto_slider.
  destruct (auto_slider_loop_total conf auto timeout Hauto Htime
              (pre ++ [prev]) {| idx := -1; slide := true |})
    as (acts & s & Hrun).
  destruct (auto_slider_loop_last conf auto timeout Hauto Htime
              pre prev {| idx := -1; slide := true |} s acts
              (or_introl eq_refl) Hrun) as [Hslide Hidx].
  exists acts, s. split; [exact Hrun|]. split; [exact Hslide|].
  split; [exact Hidx|].
  change (pre ++ [prev; cur]) with (pre ++ [prev] ++ [cur]).
  rewrite app_assoc, (auto_slider_loop_app conf auto timeout Hauto Htime).
  rewrite Hrun. cbn [mbind option_bind auto_slider_loop].
  rewrite (auto_slider_body_eq conf auto timeout Hauto Htime).
  cbn [mbind option_bind]. rewrite Hslide, app_nil_r. reflexivity.
Qed.

Lemma auto_slider_later_iterations_witness :
  exists acts s,
    auto_slider (Examples.conf_of (Examples.cfg_file 0.7 1.8 false))
      [false; false]
    = Some (acts, s)
    /\ idx s = 0%Z.
Proof.
  destruct (auto_slider_later_iterations
              (Examples.conf_of (Examples.cfg_file 0.7 1.8 false))
              (PyBool false) 10 [] false false eq_refl eq_refl)
    as (acts & s & Hfirst & _ & _ & Hsecond).
  cbn [app] in Hfirst, Hsecond.
  assert (Hs : s = {| idx := 0; slide := false |}).
  { vm_compute in Hfirst. now injection Hfirst as _ <-. }
  subst s. eexists. eexists. split; [exact Hsecond|reflexivity].
Defined.

(** C3 as stated fails on the first iteration: with auto-rotation switched
    off in the file and no signal ever given, the first iteration does not
    leave the page index where it was, at -1. *)
Lemma auto_slider_first_iteration_slides :
  ~ (exists acts s,
       auto_slider (Examples.conf_of (Examples.cfg_file 0.7 1.8 false))
         [false]
       = Some (acts, s)
       /\ idx s = (-1)%Z).
Proof.
  intros (acts & s & Hrun & Hidx). vm_compute in Hrun.
  injection Hrun as _ <-. discriminate Hidx.
Qed.

(** C10: the first iteration of [auto_slider] always slides, from the
    initial index -1 to page 0, which it draws, whether auto-rotation is
    enabled or not and whatever the event does: [slide] starts as true. *)
Theorem auto_slider_first_iteration (conf : gmap string entry)
    (auto : pyval) (timeout : Q) (is_set : bool) :
  getitem2 conf "slider" "auto" = Some auto ->
  Misc.get_sleep_time conf ≫= num_of = Some timeout ->
  auto_slider conf [is_set]
  = Some ([DrawText (gen_pages 0); DispShow; EventClear; EventWait timeout],
          {| idx := 0; slide := is_set |})
  /\ gen_pages 0 = SystemPage.
Proof.
  intros Hauto Htime. split; [|reflexivity].
  unfold auto_slider. cbn [auto_slider_loop].
  rewrite (auto_slider_body_eq conf auto timeout Hauto Htime).
  cbn [mbind option_bind slide idx]. rewrite orb_true_r. reflexivity.
Qed.

Lemma auto_slider_first_iteration_witness :
  auto_slider (Examples.conf_of (Examples.cfg_file 0.7 1.8 false)) [false]
  = Some ([DrawText SystemPage; DispShow; EventClear; EventWait 10],
          {| idx := 0; slide := false |}).
Proof.
  exact (proj1 (auto_slider_first_iteration
                  (Examples.conf_of (Examples.cfg_file 0.7 1.8 false))
                  (PyBool false) 10 false eq_refl eq_refl)).
Defined.

End SliderClaims.

(** * Further properties *)

(** ** What [read_conf] can return *)

Section ReadConfShape.
Import Misc.

(** [read_conf] never raises, and returns one of two things: the defaults,
    or what the file says when every lookup succeeded. *)
Lemma read_conf_cases (cfg : ConfigParser) :
  read_conf cfg = Ok documented_defaults
  \/ exists lv0 lv1 lv2 lv3 click twice press time_twice time_press auto
            slider_time rotate f_temp extra,
       read_conf cfg
       = Ok (loaded_conf lv0 lv1 lv2 lv3 click twice press time_twice
               time_press auto slider_time rotate f_temp extra).
Proof.
  unfold read_conf, try_except, read_conf_try, bind, lift, store, store_top.
  repeat match goal with
         | |- context [match ?x with Ok _ => _ | Raise _ => _ end] =>
             destruct x
         end;
    try (left; reflexivity).
  right. do 14 eexists. reflexivity.
Qed.

Lemma documented_defaults_ready : conf_ready documented_defaults.
Proof.
  unfold conf_ready. split; [|split; [|split; [|split; [|split]]]].
  - intros lv Hin. simpl in Hin.
    repeat (destruct Hin as [<-|Hin]; [eexists; reflexivity|]). destruct Hin.
  - eexists; reflexivity.
  - eexists; reflexivity.
  - eexists; reflexivity.
  - eexists; reflexivity.
  - do 3 eexists; reflexivity.
Qed.

Lemma loaded_conf_ready (lv0 lv1 lv2 lv3 : Q) (click twice press : string)
    (time_twice time_press : Q) (auto : bool) (slider_time : Q)
    (rotate f_temp : bool) (extra : string) :
  conf_ready (loaded_conf lv0 lv1 lv2 lv3 click twice press time_twice
                time_press auto slider_time rotate f_temp extra).
Proof.
  unfold conf_ready. split; [|split; [|split; [|split; [|split]]]].
  - intros lv Hin. simpl in Hin.
    repeat (destruct Hin as [<-|Hin]; [eexists; reflexivity|]). destruct Hin.
  - eexists; reflexivity.
  - eexists; reflexivity.
  - eexists; reflexivity.
  - eexists; reflexivity.
  - do 3 eexists; reflexivity.
Qed.

End ReadConfShape.

(** ** The module-level [conf] *)

Section ModuleConf.
Import Misc.
Local Open Scope Q_scope.

Lemma getitem2_update (c m : gmap string entry) (k o : string) (v : pyval) :
  getitem2 c k o = Some v -> getitem2 (conf_update c m) k o = Some v.
Proof.
  unfold getitem2, conf_update. intros H.
  destruct (c !! k) as [[d|w]|] eqn:E; try discriminate.
  now rewrite (lookup_union_Some_l c m k (Dict d) E).
Qed.

Lemma bind_num_of_update (c m : gmap string entry) (k o : string) (q : Q) :
  getitem2 c k o ≫= num_of = Some q ->
  getitem2 (conf_update c m) k o ≫= num_of = Some q.
Proof.
  intros H. destruct (getitem2 c k o) as [v|] eqn:E; [|discriminate].
  now rewrite (getitem2_update c m k o v E).
Qed.

Lemma conf_ready_update (c m : gmap string entry) :
  conf_ready c -> conf_ready (conf_update c m).
Proof.
  intros (Hfan & [L HL] & [D HD] & [a Ha] & [t Ht] & (k1 & k2 & k3 & Hkey)).
  unfold conf_ready. split; [|split; [|split; [|split; [|split]]]].
  - intros lv Hin. destruct (Hfan lv Hin) as [th Hth]. exists th.
    now apply bind_num_of_update.
  - exists L. now apply bind_num_of_update.
  - exists D. now apply bind_num_of_update.
  - exists a. now apply getitem2_update.
  - exists t. now apply bind_num_of_update.
  - exists k1, k2, k3. unfold conf_update.
    now apply lookup_union_Some_l.
Qed.

(** What importing [misc] leaves in [conf], whatever the file. *)
Lemma module_conf_shape (cfg : ConfigParser) :
  exists c,
    module_conf cfg = Ok c
    /\ conf_ready c
    /\ c !! "run" = Some (Val (PyFloat 1))
    /\ exists names, c !! "disk" ≫= iter_names = Some names.
Proof.
  unfold module_conf.
  destruct (read_conf_cases cfg)
    as [->|(lv0 & lv1 & lv2 & lv3 & click & twice & press & tt & tp & auto
            & st & rot & ft & extra & ->)].
  - eexists. split; [reflexivity|]. split; [|split].
    + apply conf_ready_update, documented_defaults_ready.
    + reflexivity.
    + eexists. reflexivity.
  - eexists. split; [reflexivity|]. split; [|split].
    + apply conf_ready_update, loaded_conf_ready.
    + reflexivity.
    + destruct (String.eqb extra "") eqn:E.
      * eexists. unfold conf_update, loaded_conf. rewrite E. reflexivity.
      * eexists. unfold conf_update, loaded_conf. rewrite E. reflexivity.
Qed.

(** X1: importing [misc] never fails and always leaves a complete [conf]: the
    four fan levels and the two times as numbers, the slider settings, the
    three key bindings, the run flag at 1.0 and a list of disks to go
    through. *)
Theorem module_conf_never_raises (cfg : ConfigParser) :
  exists c,
    module_conf cfg = Ok c
    /\ conf_ready c
    /\ c !! "run" = Some (Val (PyFloat 1))
    /\ exists names, c !! "disk" ≫= iter_names = Some names.
Proof. apply module_conf_shape. Qed.

Lemma conf_ready_fan (c : gmap string entry) (t : Q) :
  conf_ready c -> exists d, fan_temp2dc c t = Some d /\ 0 <= d <= 1.
Proof.
  intros (Hfan & _).
  destruct (Hfan "lv3"%string) as [th3 H3]; [simpl; tauto|].
  destruct (Hfan "lv2"%string) as [th2 H2]; [simpl; tauto|].
  destruct (Hfan "lv1"%string) as [th1 H1]; [simpl; tauto|].
  destruct (Hfan "lv0"%string) as [th0 H0]; [simpl; tauto|].
  destruct (fan_temp2dc_total c th3 th2 th1 th0 t H3 H2 H1 H0)
    as (r & Hr & Hd).
  exists (duty2dc r). split; [exact Hd|].
  pose proof (fan_temp2dc_loop_lv2dc_range c t r Hr). unfold duty2dc. lra.
Qed.

(** X4: with the [conf] that importing [misc] gives, from any file,
    [fan_temp2dc] never raises, and its duty is within 0 and 1 at every
    temperature. *)
Theorem fan_temp2dc_after_import (cfg : ConfigParser) :
  exists c,
    module_conf cfg = Ok c
    /\ forall t, exists d, fan_temp2dc c t = Some d /\ 0 <= d <= 1.
Proof.
  destruct (module_conf_shape cfg) as (c & Hc & Hready & _).
  exists c. split; [exact Hc|]. intros t. now apply conf_ready_fan.
Qed.


(** X6: [fan_switch] on the imported [conf] never raises; it takes the run
    flag from 1.0 to 0.0 and touches nothing else, and a second call gives
    back the very [conf] it started from. *)
Theorem fan_switch_after_import (cfg : ConfigParser) :
  exists c c',
    module_conf cfg = Ok c
    /\ fan_switch c = Some c'
    /\ c' !! "run" = Some (Val (PyFloat 0))
    /\ (forall k, k <> "run"%string -> c' !! k = c !! k)
    /\ fan_switch c' = Some c.
Proof.
  destruct (module_conf_shape cfg) as (c & Hc & _ & Hrun & _).
  exists c, (<["run" := Val (PyFloat 0)]> c).
  split; [exact Hc|]. split; [|split; [|split]].
  - unfold fan_switch. rewrite Hrun. reflexivity.
  - apply lookup_insert_eq.
  - intros k Hk. now apply lookup_insert_ne.
  - unfold fan_switch. rewrite lookup_insert_eq.
    change (negb (truthy (PyFloat 0))) with true. cbv iota.
    rewrite insert_insert_eq. f_equal. now apply insert_id.
Qed.

End ModuleConf.

(** ** [read_key_events]: every edge is accounted for *)

Section KeyAccount.
Import Misc.

Variables L D : Q.

Lemma occurrences_app (g : string) (ys1 ys2 : list string) :
  occurrences g (ys1 ++ ys2) = (occurrences g ys1 + occurrences g ys2)%Z.
Proof.
  unfold occurrences. rewrite List.filter_app, List.length_app. lia.
Qed.

(** Stretches of the loop add up. *)
Lemma accounted_trans (s s1 s2 : locals) (ys1 ys2 : list string)
    (r1 r2 f1 f2 : Z) :
  accounted D s ys1 r1 f1 s1 -> accounted D s1 ys2 r2 f2 s2 ->
  accounted D s (ys1 ++ ys2) (r1 + r2) (f1 + f2) s2.
Proof.
  intros (_ & Hys1 & A1 & B1 & C1) (Hinv & Hys2 & A2 & B2 & C2).
  unfold accounted. rewrite !occurrences_app.
  split; [exact Hinv|]. split; [now apply Forall_app|].
  split; [lia|]. split; lia.
Qed.

Lemma accounted_refl (s : locals) : key_inv D s -> accounted D s [] 0 0 s.
Proof.
  intros Hinv. unfold accounted, occurrences. cbn [List.filter length].
  split; [exact Hinv|]. split; [constructor|]. split; [lia|]. split; lia.
Qed.

Ltac account :=
  unfold accounted, key_inv, occurrences, long_press_armed, flag;
  cbn;
  repeat match goal with
         | |- _ /\ _ => split
         | |- Forall _ _ => repeat constructor; tauto
         | |- _ \/ _ => first [left; reflexivity | right; split; reflexivity]
         end;
  try lia.

(** A timeout, which needs a wait to be armed. *)
Lemma accounted_timed_out (s : locals) :
  key_inv D s -> wait s <> None ->
  accounted D s (fst (timed_out s)) 0 0 (snd (timed_out s)).
Proof.
  destruct s as [cc [w|] ign]; [|intros _ H; exfalso; now apply H].
  intros [Hcc|[Hcc Hw]] _; cbn [click_count wait] in *; subst cc.
  - rewrite timed_out_idle. destruct ign; account.
  - rewrite timed_out_one_click. destruct ign; account.
Qed.

(** One edge. *)
Lemma accounted_edge_event (s : locals) (e : edge_type) :
  key_inv D s ->
  accounted D s (fst (edge_event L D s e))
    (flag (is_rising e)) (flag (negb (is_rising e)))
    (snd (edge_event L D s e)).
Proof.
  destruct s as [cc w ign].
  intros [Hcc|[Hcc Hw]]; cbn [click_count wait] in *; subst.
  - destruct e.
    + destruct ign.
      * rewrite release_ignored. destruct w; account.
      * rewrite release_first. destruct w; account.
    + rewrite press_idle. destruct w, ign; account.
  - destruct e.
    + destruct ign.
      * rewrite release_ignored. account.
      * rewrite release_second. account.
    + rewrite press_after_click. destruct ign; account.
Qed.

Lemma releases_cons (e : edge_type) (es : list edge_type) :
  releases (e :: es) = (flag (is_rising e) + releases es)%Z.
Proof.
  unfold releases, flag. cbn [List.filter].
  destruct (is_rising e); cbn [length]; lia.
Qed.

Lemma presses_cons (e : edge_type) (es : list edge_type) :
  presses (e :: es) = (flag (negb (is_rising e)) + presses es)%Z.
Proof.
  unfold presses, flag. cbn [List.filter].
  destruct (negb (is_rising e)); cbn [length]; lia.
Qed.

(** One batch of edges. *)
Lemma accounted_edge_events (es : list edge_type) (s : locals) :
  key_inv D s ->
  accounted D s (fst (edge_events L D s es)) (releases es) (presses es)
    (snd (edge_events L D s es)).
Proof.
  revert s. induction es as [|e es IH]; intros s Hinv.
  - now apply accounted_refl.
  - cbn [edge_events].
    pose proof (accounted_edge_event s e Hinv) as He.
    destruct (edge_event L D s e) as [y s1]. cbn [fst snd] in He.
    assert (Hinv1 : key_inv D s1) by apply He.
    specialize (IH s1 Hinv1).
    destruct (edge_events L D s1 es) as [ys s2]. cbn [fst snd] in *.
    rewrite releases_cons, presses_cons.
    exact (accounted_trans _ _ _ _ _ _ _ _ _ He IH).
Qed.

(** The edges read and the edges left are the edges there were. *)
Lemma take_ready_split (t : Q) (q : list (Q * edge_type)) :
  map snd q = fst (take_ready t q) ++ map snd (snd (take_ready t q)).
Proof.
  induction q as [|[ts e] q IH]; cbn [take_ready]; [reflexivity|].
  destruct (Qle_bool ts t); [|reflexivity].
  destruct (take_ready t q) as [es rest]. cbn [fst snd map app] in *.
  now rewrite IH.
Qed.

Lemma releases_app (es1 es2 : list edge_type) :
  releases (es1 ++ es2) = (releases es1 + releases es2)%Z.
Proof. unfold releases. rewrite List.filter_app, List.length_app. lia. Qed.

Lemma presses_app (es1 es2 : list edge_type) :
  presses (es1 ++ es2) = (presses es1 + presses es2)%Z.
Proof. unfold presses. rewrite List.filter_app, List.length_app. lia. Qed.

Lemma gestures_stamped (t : Q) (ys : list string) (out : list (Q * string)) :
  gestures (map (pair t) ys ++ out) = ys ++ gestures out.
Proof.
  unfold gestures. rewrite map_app, map_map. cbn [snd].
  now rewrite map_id.
Qed.

(** The whole loop, from any locals that satisfy the invariant: when it
    ends up blocked, no wait is armed and the account is settled. *)
Lemma key_loop_accounted (fuel : nat) (s : locals) (r : request)
    (out : list (Q * string)) (sf : locals) :
  key_inv D s ->
  key_loop L D fuel s r = Some (out, sf) ->
  wait sf = None
  /\ accounted D s (gestures out) (releases (map snd (pending r)))
       (presses (map snd (pending r))) sf.
Proof.
  revert s r out sf. induction fuel as [|fuel IH]; intros s r out sf Hinv;
    [discriminate|].
  cbn [key_loop]. destruct r as [t q]. unfold wait_edge_events.
  cbn [pending now].
  assert (Hready : forall ts,
            (let '(es, r2) :=
               read_edge_events {| now := later t ts; pending := q |} in
             let '(ys, s1) := edge_events L D s es in
             '(out, sf) ← key_loop L D fuel s1 r2;
             Some (map (pair (now r2)) ys ++ out, sf))
            = Some (out, sf) ->
            wait sf = None
            /\ accounted D s (gestures out) (releases (map snd q))
                 (presses (map snd q)) sf).
  { intros ts. unfold read_edge_events. cbn [pending now].
    pose proof (take_ready_split (later t ts) q) as Hsplit.
    destruct (take_ready (later t ts) q) as [es rest]. cbn [fst snd] in Hsplit.
    pose proof (accounted_edge_events es s Hinv) as Hes.
    destruct (edge_events L D s es) as [ys s1]. cbn [fst snd] in Hes.
    destruct (key_loop L D fuel s1 {| now := later t ts; pending := rest |})
      as [[out1 sf1]|] eqn:Hrun; cbn [mbind option_bind]; [|discriminate].
    intros [= <- <-].
    destruct (IH _ _ _ _ (proj1 Hes) Hrun) as [Hw Hrest].
    cbn [pending now] in Hrest. split; [exact Hw|].
    rewrite gestures_stamped, Hsplit, releases_app, presses_app.
    exact (accounted_trans _ _ _ _ _ _ _ _ _ Hes Hrest). }
  assert (Htimeout : forall w q',
            wait s = Some w ->
            (let '(ys, s1) := timed_out s in
             '(out, sf) ← key_loop L D fuel s1
                            {| now := (t + w)%Q; pending := q' |};
             Some (map (pair (now {| now := (t + w)%Q; pending := q' |})) ys
                   ++ out, sf))
            = Some (out, sf) ->
            wait sf = None
            /\ accounted D s (gestures out) (releases (map snd q'))
                 (presses (map snd q')) sf).
  { intros w q' Hw.
    assert (Hne : wait s <> None) by congruence.
    pose proof (accounted_timed_out s Hinv Hne) as Hto.
    destruct (timed_out s) as [ys s1]. cbn [fst snd] in Hto.
    destruct (key_loop L D fuel s1 {| now := (t + w)%Q; pending := q' |})
      as [[out1 sf1]|] eqn:Hrun; cbn [mbind option_bind]; [|discriminate].
    intros [= <- <-].
    destruct (IH _ _ _ _ (proj1 Hto) Hrun) as [Hwf Hrest].
    cbn [pending now] in Hrest. split; [exact Hwf|].
    rewrite gestures_stamped.
    replace (releases (map snd q')) with (0 + releases (map snd q'))%Z by lia.
    replace (presses (map snd q')) with (0 + presses (map snd q'))%Z by lia.
    exact (accounted_trans _ _ _ _ _ _ _ _ _ Hto Hrest). }
  destruct q as [|[ts e] q'].
  - destruct (wait s) as [w|] eqn:Hw.
    + exact (Htimeout w [] eq_refl).
    + intros [= <- <-]. split; [exact Hw|]. now apply accounted_refl.
  - destruct (wait s) as [w|] eqn:Hw.
    + destruct (Qle_bool ts (t + w)).
      * exact (Hready ts).
      * exact (Htimeout w _ eq_refl).
    + exact (Hready ts).
Qed.

End KeyAccount.

Section KeyAccountResults.
Import Misc.

(** X7: whatever the timing of the edges and however they are batched, when
    [read_key_events] has dealt with them all: it has yielded nothing but
    "click", "twice" and "press"; the releases it read are those of the
    clicks, two for each double click, and at most one swallowed after each
    long press; no more long presses were yielded than presses read; and it
    waits for the next edge with no click pending and no wait armed. *)
Theorem read_key_events_accounts (conf : gmap string entry) (r : request)
    (out : list (Q * string)) (sf : locals) :
  read_key_events conf r = Some (out, sf) ->
  Forall (fun g => g = "click" \/ g = "twice" \/ g = "press")%string
    (gestures out)
  /\ (occurrences "click" (gestures out)
      + 2 * occurrences "twice" (gestures out)
      <= releases (map snd (pending r)))%Z
  /\ (releases (map snd (pending r))
      <= occurrences "click" (gestures out)
         + 2 * occurrences "twice" (gestures out)
         + occurrences "press" (gestures out))%Z
  /\ (occurrences "press" (gestures out)
      <= presses (map snd (pending r)))%Z
  /\ click_count sf = 0%Z
  /\ wait sf = None.
Proof.
  unfold read_key_events, read_key_events_from.
  destruct (getitem2 conf "time" "press" ≫= num_of) as [L|];
    cbn [mbind option_bind]; [|discriminate].
  destruct (getitem2 conf "time" "twice" ≫= num_of) as [D|];
    cbn [mbind option_bind]; [|discriminate].
  intros Hrun.
  assert (Hinit : key_inv D locals_initial) by (left; reflexivity).
  destruct (key_loop_accounted L D _ _ _ _ _ Hinit Hrun)
    as (Hw & Hinv & Hys & A & B & C).
  assert (Hcc : click_count sf = 0%Z).
  { destruct Hinv as [Hcc|[_ Hw']]; [exact Hcc|congruence]. }
  unfold long_press_armed, flag, locals_initial in A, B, C.
  cbn [click_count wait ignore_release] in A, B, C.
  rewrite Hcc in A, B, C. rewrite Hw in C.
  change (0 =? 0)%Z with true in C. cbv iota in C.
  split; [exact Hys|].
  destruct (ignore_release sf); repeat split; try assumption; lia.
Qed.

Lemma read_key_events_accounts_witness :
  (occurrences "click" ["click"; "click"]
   + 2 * occurrences "twice" ["click"; "click"] <= 2)%Z.
Proof.
  exact (proj1 (proj2
    (read_key_events_accounts documented_defaults
       {| now := 0;
          pending := [(0, FALLING_EDGE); (0.1, RISING_EDGE);
                      (0.3, FALLING_EDGE); (5, RISING_EDGE)]%Q |}
       [(0.3 + 0.7, "click"%string); (5 + 0.7, "click"%string)]%Q
       locals_initial eq_refl))).
Defined.

End KeyAccountResults.

(** ** [auto_slider]: where the page index is *)

Section SliderIndex.
Import Oled.

Lemma advances_snoc (auto a : bool) (answers : list bool) :
  advances auto (answers ++ [a])
  = (advances auto answers + (if auto || a then 1 else 0))%Z.
Proof.
  unfold advances. destruct auto; cbn [orb].
  - rewrite List.length_app. cbn [length]. lia.
  - rewrite List.filter_app, List.length_app. destruct a; cbn; lia.
Qed.

Lemma flat_map_seq_ext {A} (f g : nat -> list A) (n : nat) :
  (forall i, (i < n)%nat -> f i = g i) ->
  flat_map f (seq 0 n) = flat_map g (seq 0 n).
Proof.
  intros H. rewrite !flat_map_concat_map. f_equal.
  apply List.map_ext_in. intros i Hi. apply in_seq in Hi. apply H. lia.
Qed.

(** X9: after any number of iterations the page index is the number of
    advances since the first page, modulo 3: with auto-rotation on, one
    advance for each iteration after the first; with auto-rotation off, one
    for each wait that ended with the event set.  What has been done by
    then is, for each iteration in turn, exactly these four steps in this
    order: draw the page the index stood at in that iteration, show it,
    clear the event, wait for it for the slider time. *)
Theorem auto_slider_index (conf : gmap string entry) (auto : pyval)
    (timeout : Q) (answers : list bool) (last : bool) :
  getitem2 conf "slider" "auto" = Some auto ->
  Misc.get_sleep_time conf ≫= num_of = Some timeout ->
  exists acts s,
    auto_slider conf (answers ++ [last]) = Some (acts, s)
    /\ idx s = (advances (truthy auto) answers mod 3)%Z
    /\ slide s = last
    /\ acts
       = flat_map
           (fun i =>
              [DrawText
                 (gen_pages (advances (truthy auto) (firstn i answers) mod 3));
               DispShow; EventClear; EventWait timeout])
           (seq 0 (S (length answers)))
    /\ length acts = (4 * (length answers + 1))%nat.
Proof.
  intros Hauto Htime. revert last.
  induction answers as [|a answers IH] using rev_ind; intros last.
  - unfold auto_slider. cbn [app auto_slider_loop].
    rewrite (auto_slider_body_eq conf auto timeout Hauto Htime).
    cbn [mbind option_bind slide idx]. rewrite orb_true_r.
    eexists. eexists. split; [reflexivity|].
    cbn [idx slide]. destruct (truthy auto); repeat split; reflexivity.
  - destruct (IH a) as (acts & s & Hrun & Hidx & Hslide & Hacts & Hlen).
    unfold auto_slider in *.
    rewrite (auto_slider_loop_app conf auto timeout Hauto Htime), Hrun.
    cbn [mbind option_bind auto_slider_loop].
    rewrite (auto_slider_body_eq conf auto timeout Hauto Htime).
    cbn [mbind option_bind]. eexists. eexists. split; [reflexivity|].
    cbn [idx slide]. rewrite Hslide, Hidx, advances_snoc.
    assert (Hnext : (if truthy auto || a
                     then ((advances (truthy auto) answers mod 3 + 1) mod 3)%Z
                     else (advances (truthy auto) answers mod 3)%Z)
                    = ((advances (truthy auto) answers
                        + (if truthy auto || a then 1 else 0)) mod 3)%Z).
    { destruct (truthy auto || a).
      - now rewrite Z.add_mod_idemp_l by lia.
      - now rewrite Z.add_0_r. }
    split; [exact Hnext|]. split; [reflexivity|]. split.
    + rewrite app_nil_r, List.length_app. cbn [length].
      replace (length answers + 1)%nat with (S (length answers)) by lia.
      rewrite (seq_S (S (length answers)) 0), flat_map_app.
      cbn [flat_map Nat.add]. rewrite app_nil_r. f_equal.
      * rewrite Hacts. apply flat_map_seq_ext. intros i Hi.
        rewrite firstn_app.
        replace (i - length answers)%nat with 0%nat by lia.
        cbn [firstn]. now rewrite app_nil_r.
      * rewrite firstn_all2 by (rewrite List.length_app; cbn [length]; lia).
        rewrite advances_snoc, <- Hnext.
        destruct (truthy auto || a); reflexivity.
    + rewrite app_nil_r, !List.length_app, Hlen.
      destruct (truthy auto || a); cbn [length]; lia.
Qed.

Lemma auto_slider_index_witness :
  exists acts s,
    auto_slider (Examples.conf_of (Examples.cfg_file 0.7 1.8 false))
      ([true; false; true; true] ++ [false])
    = Some (acts, s)
    /\ idx s = (3 mod 3)%Z.
Proof.
  destruct (auto_slider_index
              (Examples.conf_of (Examples.cfg_file 0.7 1.8 false))
              (PyBool false) 10 [true; false; true; true] false
              eq_refl eq_refl)
    as (acts & s & Hrun & Hidx & _).
  exists acts, s. split; [exact Hrun|exact Hidx].
Defined.

End SliderIndex.

(** ** A successful load *)

Section ReadConfSuccess.
Import Misc.

(** X2: when the [try] body of [read_conf] runs to its end, every setting is
    found by the code that reads it, with the value [ConfigParser] gave:
    the fan levels by [fan_temp2dc], the two times by [read_key_events], the
    bindings by [get_func], the slider settings by [auto_slider]. *)
Theorem read_conf_keeps_what_it_reads (cfg : ConfigParser)
    (c : gmap string entry) :
  read_conf_try cfg ∅ = (Ok tt, c) ->
  read_conf cfg = Ok c
  /\ (exists q, getfloat cfg "fan" "lv0" = Ok q
                /\ threshold c "lv0" = Some q)
  /\ (exists q, getfloat cfg "fan" "lv1" = Ok q
                /\ threshold c "lv1" = Some q)
  /\ (exists q, getfloat cfg "fan" "lv2" = Ok q
                /\ threshold c "lv2" = Some q)
  /\ (exists q, getfloat cfg "fan" "lv3" = Ok q
                /\ threshold c "lv3" = Some q)
  /\ (exists q, getfloat cfg "time" "press" = Ok q
                /\ getitem2 c "time" "press" ≫= num_of = Some q)
  /\ (exists q, getfloat cfg "time" "twice" = Ok q
                /\ getitem2 c "time" "twice" ≫= num_of = Some q)
  /\ (exists b, get cfg "key" "click" = Ok b
                /\ get_func c "click" = Some (PyStr b))
  /\ (exists b, get cfg "key" "twice" = Ok b
                /\ get_func c "twice" = Some (PyStr b))
  /\ (exists b, get cfg "key" "press" = Ok b
                /\ get_func c "press" = Some (PyStr b))
  /\ (exists a, getboolean cfg "slider" "auto" = Ok a
                /\ getitem2 c "slider" "auto" = Some (PyBool a))
  /\ (exists q, getfloat cfg "slider" "time" = Ok q
                /\ get_sleep_time c = Some (PyFloat q)).
Proof.
  unfold read_conf, try_except. intros Htry. rewrite Htry.
  split; [reflexivity|]. revert Htry.
  unfold read_conf_try, bind, lift, store, store_top.
  repeat match goal with
         | |- context [match ?x with Ok _ => _ | Raise _ => _ end] =>
             destruct x
         end;
    intros [= <-].
  repeat match goal with
         | |- (exists _, _) /\ _ => split; [eexists; split; reflexivity|]
         end.
  eexists; split; reflexivity.
Qed.

Lemma read_conf_keeps_what_it_reads_witness :
  read_conf (Examples.cfg_file 0.7 1.8 true)
  = Ok (loaded_conf 35 40 45 50 "slider" "switch" "none" 0.7 1.8 true 10
          false false "").
Proof.
  exact (proj1 (read_conf_keeps_what_it_reads
                  (Examples.cfg_file 0.7 1.8 true) _ eq_refl)).
Defined.


Lemma split_nonempty (sep : ascii) (s : string) : split sep s <> [].
Proof.
  destruct s as [|c s]; [discriminate|]. cbn [split].
  destruct (split sep s); [discriminate|].
  destruct (Ascii.eqb c sep); discriminate.
Qed.

(** No piece holds the separator. *)
Lemma split_pieces (sep : ascii) (s : string) :
  Forall (fun w => ~ In sep (list_ascii_of_string w)) (split sep s).
Proof.
  induction s as [|c s IH]; [repeat constructor; intros []|]. cbn [split].
  destruct (split sep s) as [|w ws] eqn:Hs.
  - now destruct (split_nonempty sep s).
  - inversion IH as [|? ? Hw Hws]; subst.
    destruct (Ascii.eqb c sep) eqn:E.
    + constructor; [intros []|now constructor].
    + apply Ascii.eqb_neq in E. constructor; [|exact Hws].
      cbn [list_ascii_of_string In]. intros [Heq|Hin]; [congruence|tauto].
Qed.



End ReadConfSuccess.

(** ** [get_disk_info] *)


Section DiskInfo.
Import Misc.
Local Open Scope Q_scope.

Lemma dict_set_keys_old (k v : string) (d : list (string * string)) :
  In k (map fst d) -> map fst (dict_set k v d) = map fst d.
Proof.
  induction d as [|[k' v'] d IH]; cbn [map fst dict_set In]; [intros []|].
  destruct (String.eqb k k') eqn:E.
  - apply String.eqb_eq in E. now subst.
  - apply String.eqb_neq in E. intros [Heq|Hin]; [congruence|].
    cbn [map fst]. now rewrite IH.
Qed.

Lemma dict_set_keys_new (k v : string) (d : list (string * string)) :
  ~ In k (map fst d) -> map fst (dict_set k v d) = map fst d ++ [k].
Proof.
  induction d as [|[k' v'] d IH]; cbn [map fst dict_set In app];
    [reflexivity|].
  intros Hnot. destruct (String.eqb k k') eqn:E.
  - apply String.eqb_eq in E. subst. tauto.
  - cbn [map fst]. rewrite IH by tauto. reflexivity.
Qed.

(** The value stored is found under its key ... *)
Lemma dict_set_here (k v : string) (d : list (string * string)) :
  In (k, v) (dict_set k v d).
Proof.
  induction d as [|[k' v'] d IH]; cbn [dict_set]; [now left|].
  destruct (String.eqb k k'); [now left|now right].
Qed.

(** ... and the entries of the other keys stay. *)
Lemma dict_set_other (k v k' v' : string) (d : list (string * string)) :
  k' <> k -> In (k', v') d -> In (k', v') (dict_set k v d).
Proof.
  intros Hne. induction d as [|[k1 v1] d IH]; cbn [dict_set In]; [tauto|].
  destruct (String.eqb k k1) eqn:E.
  - apply String.eqb_eq in E. subst k1.
    intros [[= <- <-]|Hin]; [congruence|now right].
  - intros [Heq|Hin]; [now left|right; now apply IH].
Qed.

Lemma dict_set_head (k v k0 v0 : string) (d : list (string * string)) :
  exists v0' d', dict_set k v ((k0, v0) :: d) = (k0, v0') :: d'.
Proof.
  cbn [dict_set]. destruct (String.eqb k k0) eqn:E.
  - apply String.eqb_eq in E. subst. eauto.
  - eauto.
Qed.

Variable df : df_command -> string.

Lemma info_after_spec (disks : list string) :
  (exists v0 d, info_after df disks = ("root"%string, v0) :: d)
  /\ List.NoDup (map fst (info_after df disks))
  /\ (forall x, In x (map fst (info_after df disks))
                <-> x = "root"%string \/ In x disks)
  /\ (forall x, In x disks -> In (x, df (DfDev x)) (info_after df disks))
  /\ (~ In "root"%string disks ->
      In ("root"%string, df DfRoot) (info_after df disks)).
Proof.
  unfold info_after.
  induction disks as [|x disks IH] using rev_ind.
  - cbn [fold_left map fst]. split; [eauto|]. split.
    + apply List.NoDup_cons; [simpl; tauto|apply List.NoDup_nil].
    + split; [|split].
      * intros x. simpl. intuition.
      * intros x [].
      * intros _. now left.
  - rewrite fold_left_app. cbn [fold_left].
    destruct IH as ((v0 & d & Hhead) & Hnodup & Hkeys & Hvals & Hroot).
    set (info := fold_left _ disks _) in *.
    split; [|split; [|split; [|split]]].
    + rewrite Hhead. apply dict_set_head.
    + destruct (in_dec string_dec x (map fst info)) as [Hin|Hnot].
      * now rewrite dict_set_keys_old.
      * rewrite dict_set_keys_new by exact Hnot.
        apply List.NoDup_app; [exact Hnodup| |].
        -- apply List.NoDup_cons; [simpl; tauto|apply List.NoDup_nil].
        -- intros y Hy [<-|[]]. contradiction.
    + intros y. rewrite in_app_iff. cbn [In].
      destruct (in_dec string_dec x (map fst info)) as [Hin|Hnot].
      * rewrite dict_set_keys_old by exact Hin. rewrite Hkeys.
        apply Hkeys in Hin. intuition (subst; tauto).
      * rewrite dict_set_keys_new by exact Hnot.
        rewrite in_app_iff, Hkeys. cbn [In]. intuition (subst; tauto).
    + intros y Hy. apply in_app_iff in Hy. cbn [In] in Hy.
      destruct (string_dec y x) as [->|Hne]; [apply dict_set_here|].
      apply dict_set_other; [exact Hne|]. apply Hvals.
      destruct Hy as [Hy|[Hy|[]]]; [exact Hy|congruence].
    + intros Hnot. apply dict_set_other.
      * intros Heq. subst x. apply Hnot. apply in_app_iff. right. now left.
      * apply Hroot. intros Hin. apply Hnot. apply in_app_iff. now left.
Qed.

Lemma combine_fst_snd (l : list (string * string)) :
  combine (map fst l) (map snd l) = l.
Proof.
  induction l as [|[a b] l IH]; cbn [map fst snd combine]; [reflexivity|].
  now rewrite IH.
Qed.

(** X11: a call of [get_disk_info] that finds the cache empty or out of date
    runs [df] once for the root file system and once for every name in
    [conf['disk']], and returns keys and values of equal length: "root"
    first, then every disk once, each with the output of its own [df]. *)
Theorem get_disk_info_refresh (time_now time_after : Q)
    (conf : gmap string entry) (cache : disk_cache) (disks : list string) :
  cache_stale time_now cache = true ->
  conf !! "disk" ≫= iter_names = Some disks ->
  exists k v,
    get_disk_info df time_now time_after conf cache
    = Some ((k, v),
            {| cache_time := Some time_after; cache_info := Some (k, v) |},
            DfRoot :: map DfDev disks)
    /\ length k = length v
    /\ (exists k', k = "root"%string :: k')
    /\ List.NoDup k
    /\ (forall x, In x k <-> x = "root"%string \/ In x disks)
    /\ (forall x, In x disks -> In (x, df (DfDev x)) (combine k v))
    /\ (~ In "root"%string disks ->
        In ("root"%string, df DfRoot) (combine k v)).
Proof.
  intros Hstale Hdisks.
  exists (map fst (info_after df disks)), (map snd (info_after df disks)).
  destruct (info_after_spec disks)
    as ((v0 & d & Hhead) & Hnodup & Hkeys & Hvals & Hroot).
  split.
  - unfold get_disk_info. rewrite Hstale, Hdisks. reflexivity.
  - rewrite combine_fst_snd, !length_map.
    split; [reflexivity|]. split; [|tauto].
    rewrite Hhead. cbn [map fst]. eauto.
Qed.

End DiskInfo.

Lemma get_disk_info_refresh_witness :
  exists k v,
    Misc.get_disk_info (fun _ => "42%"%string) 100 101
      (<["disk" := Val (PyList ["sda"; "sdb"; "sda"]%string)]>
         documented_defaults)
      Misc.cache_empty
    = Some ((k, v),
            {| Misc.cache_time := Some 101%Q; Misc.cache_info := Some (k, v) |},
            [Misc.DfRoot; Misc.DfDev "sda"; Misc.DfDev "sdb"; Misc.DfDev "sda"])
    /\ length k = length v.
Proof.
  destruct (get_disk_info_refresh (fun _ => "42%"%string) 100 101
              (<["disk" := Val (PyList ["sda"; "sdb"; "sda"]%string)]>
                 documented_defaults)
              Misc.cache_empty ["sda"; "sdb"; "sda"]%string)
    as (k & v & Hrun & Hlen & _); [reflexivity|reflexivity|].
  exists k, v. split; [exact Hrun|exact Hlen].
Defined.

Section DiskCache.
Import Misc.
Local Open Scope Q_scope.

(** X12: for 30 seconds after a refresh, [get_disk_info] answers from its
    cache: the same keys and values, no command run, the cache as it was,
    whatever [conf['disk']] and the disks have become meanwhile.  Later
    than that, the cache is out of date again. *)
Theorem get_disk_info_cached (df df' : df_command -> string)
    (time_now time_after time_now' time_after' : Q)
    (conf conf' : gmap string entry) (cache : disk_cache)
    (disks : list string) :
  cache_stale time_now cache = true ->
  conf !! "disk" ≫= iter_names = Some disks ->
  ~ time_after == 0 ->
  exists info cache1,
    get_disk_info df time_now time_after conf cache
    = Some (info, cache1, DfRoot :: map DfDev disks)
    /\ (time_now' - time_after <= 30 ->
        get_disk_info df' time_now' time_after' conf' cache1
        = Some (info, cache1, []))
    /\ (30 < time_now' - time_after ->
        cache_stale time_now' cache1 = true).
Proof.
  intros Hstale Hdisks Hnz.
  eexists. eexists. split.
  - unfold get_disk_info. rewrite Hstale, Hdisks. reflexivity.
  - assert (Hz : Qeq_bool time_after 0 = false).
    { destruct (Qeq_bool time_after 0) eqn:E; [|reflexivity].
      apply Qeq_bool_iff in E. contradiction. }
    split.
    + intros Hle. unfold get_disk_info, cache_stale.
      cbn [cache_time cache_info]. rewrite Hz.
      rewrite (Qle_bool_true _ _ Hle). reflexivity.
    + intros Hlt. unfold cache_stale. cbn [cache_time]. rewrite Hz.
      now rewrite (Qle_bool_false _ _ Hlt).
Qed.

Lemma get_disk_info_cached_witness :
  exists info cache1,
    get_disk_info (fun _ => "42%"%string) 100 101
      (<["disk" := Val (PyList ["sda"]%string)]> documented_defaults)
      cache_empty
    = Some (info, cache1, [DfRoot; DfDev "sda"])
    /\ get_disk_info (fun _ => "57%"%string) 120 121 documented_defaults
         cache1
       = Some (info, cache1, []).
Proof.
  destruct (get_disk_info_cached (fun _ => "42%"%string)
              (fun _ => "57%"%string) 100 101 120 121
              (<["disk" := Val (PyList ["sda"]%string)]> documented_defaults)
              documented_defaults cache_empty ["sda"]%string)
    as (info & cache1 & Hfirst & Hsecond & _).
  - reflexivity.
  - reflexivity.
  - vm_compute. discriminate.
  - exists info, cache1. split; [exact Hfirst|]. apply Hsecond. lra.
Defined.

End DiskCache.

(** ** [put_disk_info] *)

Section DiskPage.
Import Misc Oled.

Lemma put_disk_info_some (k v : list string) :
  length k = length v -> k <> [] ->
  exists page,
    put_disk_info k v = Some page
    /\ length page
       = (if (3 <? length k)%nat then 3
          else if (1 <? length k)%nat then 2 else 1)%nat.
Proof.
  intros Hlen Hne.
  destruct k as [|k0 [|k1 [|k2 [|k3 [|k4 k]]]]]; [congruence| | | | |];
    destruct v as [|v0 [|v1 [|v2 [|v3 [|v4 v]]]]]; try discriminate Hlen;
    eexists; (split; [reflexivity|reflexivity]).
Qed.

(** X13: given keys and values of the same length, at least one, [put_disk_info]
    never indexes out of range.  Its page has one line for the root alone,
    two lines for up to two disks, three for more; and it shows the root and
    at most four disks: a fifth disk and any after it change nothing. *)
Theorem put_disk_info_lines (k v : list string) :
  length k = length v -> k <> [] ->
  (exists page,
     put_disk_info k v = Some page
     /\ length page
        = (if (3 <? length k)%nat then 3
           else if (1 <? length k)%nat then 2 else 1)%nat)
  /\ (forall k' v', (5 <= length k)%nat ->
        put_disk_info (k ++ k') (v ++ v') = put_disk_info k v).
Proof.
  intros Hlen Hne. split; [now apply put_disk_info_some|].
  intros k' v' H5.
  destruct k as [|k0 [|k1 [|k2 [|k3 [|k4 k]]]]]; cbn [length] in H5; try lia.
  destruct v as [|v0 [|v1 [|v2 [|v3 [|v4 v]]]]]; try discriminate Hlen.
  reflexivity.
Qed.

Lemma put_disk_info_lines_witness :
  exists page,
    put_disk_info ["root"; "sda"; "sdb"]%string ["31%"; "5%"; "77%"]%string
    = Some page
    /\ length page = 2%nat.
Proof.
  destruct (put_disk_info_lines ["root"; "sda"; "sdb"]%string
              ["31%"; "5%"; "77%"]%string eq_refl)
    as [(page & Hpage & Hlen) _]; [discriminate|].
  exists page. split; [exact Hpage|exact Hlen].
Defined.

(** X14: whatever names [conf['disk']] lists, the pair that a refreshing
    [get_disk_info] returns makes a page: [put_disk_info] raises no
    [IndexError] on it, and draws one to three lines. *)
Theorem put_disk_info_after_refresh (df : df_command -> string)
    (time_now time_after : Q) (conf : gmap string entry)
    (cache : disk_cache) (disks : list string) :
  cache_stale time_now cache = true ->
  conf !! "disk" ≫= iter_names = Some disks ->
  exists k v cache1 commands page,
    get_disk_info df time_now time_after conf cache
    = Some ((k, v), cache1, commands)
    /\ put_disk_info k v = Some page
    /\ (1 <= length page <= 3)%nat.
Proof.
  intros Hstale Hdisks.
  destruct (info_after_spec df disks) as ((v0 & d & Hhead) & _).
  destruct (put_disk_info_some (map fst (info_after df disks))
              (map snd (info_after df disks)))
    as (page & Hpage & Hlen).
  { now rewrite !length_map. }
  { rewrite Hhead. discriminate. }
  do 5 eexists. split; [|split; [exact Hpage|]].
  - unfold get_disk_info. rewrite Hstale, Hdisks. reflexivity.
  - rewrite Hlen.
    destruct (3 <? _)%nat; [lia|]. destruct (1 <? _)%nat; lia.
Qed.

Lemma put_disk_info_after_refresh_witness :
  exists k v cache1 commands page,
    get_disk_info
      (fun c => match c with DfRoot => "31%" | DfDev x => x ++ ":7G" end)%string
      100 101
      (<["disk" := Val (PyList ["sda"; "sdb"; "sdc"; "sdd"; "sde"; "sda"]%string)]>
         documented_defaults)
      cache_empty
    = Some ((k, v), cache1, commands)
    /\ k = ["root"; "sda"; "sdb"; "sdc"; "sdd"; "sde"]%string
    /\ put_disk_info k v = Some page
    /\ length page = 3%nat.
Proof.
  destruct (put_disk_info_after_refresh
              (fun c => match c with
                        | DfRoot => "31%"
                        | DfDev x => x ++ ":7G"
                        end)%string
              100 101
              (<["disk" := Val (PyList ["sda"; "sdb"; "sdc"; "sdd"; "sde";
                                        "sda"]%string)]>
                 documented_defaults)
              cache_empty ["sda"; "sdb"; "sdc"; "sdd"; "sde"; "sda"]%string)
    as (k & v & cache1 & commands & page & Hget & Hput & _);
    [reflexivity|reflexivity|].
  exists k, v, cache1, commands, page. split; [exact Hget|].
  vm_compute in Hget. injection Hget as <- <- _ _.
  split; [reflexivity|]. split; [exact Hput|].
  vm_compute in Hput. now injection Hput as <-.
Defined.

End DiskPage.

(** ** [get_blk] *)

Section Blk.
Import Misc.

Variable shell : string -> string.
Variable strip : string -> string.

Lemma getitem2_get_blk (conf : gmap string entry) (k o : string) :
  k <> "disk"%string ->
  getitem2 (get_blk shell strip conf) k o = getitem2 conf k o.
Proof.
  intros Hk. unfold getitem2, get_blk.
  now rewrite lookup_insert_ne by congruence.
Qed.

(** X15: [get_blk] replaces [conf['disk']] and nothing else, so that a complete
    [conf] stays complete.  The new list holds, in the order printed, the
    lines of the command's output that start with "sd", each free of line
    breaks; it is a list [get_disk_info] can go through; and calling
    [get_blk] again on the same output changes nothing. *)
Theorem get_blk_disks (conf : gmap string entry) :
  exists names,
    get_blk shell strip conf !! "disk" = Some (Val (PyList names))
    /\ get_blk shell strip conf !! "disk" ≫= iter_names = Some names
    /\ names = List.filter (String.prefix "sd")
                 (split newline (strip (check_output shell strip cmds_blk)))
    /\ Forall (fun x => String.prefix "sd" x = true
                        /\ ~ In newline (list_ascii_of_string x)) names
    /\ (forall k, k <> "disk"%string ->
          get_blk shell strip conf !! k = conf !! k)
    /\ (conf_ready conf -> conf_ready (get_blk shell strip conf))
    /\ get_blk shell strip (get_blk shell strip conf)
       = get_blk shell strip conf.
Proof.
  eexists. split; [apply lookup_insert_eq|].
  split; [unfold get_blk; now rewrite lookup_insert_eq|].
  split; [reflexivity|]. split; [|split; [|split]].
  - apply List.Forall_forall. intros x Hin. apply List.filter_In in Hin.
    destruct Hin as [Hin Hsd]. split; [exact Hsd|].
    pose proof (split_pieces newline
                  (strip (check_output shell strip cmds_blk))) as Hall.
    rewrite List.Forall_forall in Hall. now apply Hall.
  - intros k Hk. unfold get_blk. now rewrite lookup_insert_ne by congruence.
  - intros (Hfan & [L HL] & [D HD] & [a Ha] & [t Ht] & (k1 & k2 & k3 & Hkey)).
    unfold conf_ready, threshold, get_sleep_time in *.
    split.
    { intros lv Hin. destruct (Hfan lv Hin) as [th Hth]. exists th.
      now rewrite getitem2_get_blk by discriminate. }
    rewrite !getitem2_get_blk by discriminate.
    split; [eauto|]. split; [eauto|].
    split; [eauto|]. split; [eauto|].
    exists k1, k2, k3. unfold get_blk.
    now rewrite lookup_insert_ne by discriminate.
  - unfold get_blk. apply insert_insert_eq.
Qed.

End Blk.

Lemma get_blk_disks_witness :
  exists names,
    Misc.get_blk
      (fun _ => String.concat (String Misc.newline EmptyString)
                  ["NAME"; "sda"; "sdb"; "mmcblk0"]%string)
      (fun s => s) documented_defaults !! "disk"
    = Some (Val (PyList names))
    /\ names = ["sda"; "sdb"]%string.
Proof.
  destruct (get_blk_disks
              (fun _ => String.concat (String Misc.newline EmptyString)
                          ["NAME"; "sda"; "sdb"; "mmcblk0"]%string)
              (fun s => s) documented_defaults)
    as (names & Hdisk & _ & Hnames & _).
  exists names. split; [exact Hdisk|]. rewrite Hnames. reflexivity.
Defined.
